(** * Harvest Timer TUI: the service client and the interaction engine

    A shallow embedding of [harvest-tui.go].  The program is a Bubble Tea
    application: a [Model] value, an [Update] function that consumes one
    message (a keystroke or the completion of a remote call) and returns the
    next model together with an optional command, and a [View] function that
    renders the model.  The remote calls go through [HarvestClient].

    Conventions of the embedding:
    - Go [int] values (identifiers, indices, sizes) are [Z]; the one place
      where the program does arithmetic on them wraps at 64 bits.
    - Go [string] values are [string] (byte sequences).
    - A Go [error] is represented by the text its [Error()] method returns,
      which is the only thing the program ever reads from it.
    - A Go pointer that may be [nil] ([*Timer]) is an [option].
    - A Go [map] is a stdpp [gmap]; iterating over it visits the entries in
      an order chosen by the runtime, which is a parameter ([MapRange]).
    - The Bubble Tea, Bubbles, Lip Gloss and Resty libraries are not part of
      the program: their types and operations are parameters ([Toolkit],
      [Bubbles]) and the HTTP exchange is an input ([Response]). *)

From stdpp Require Import gmap strings list fin_maps pretty.
From Stdlib Require Import ZArith Lia.

Local Open Scope Z_scope.

(** ** Strings used by the program *)

(** The line feed written [\n] in the Go source. *)
Definition LF : string := String (Ascii.ascii_of_nat 10) EmptyString.

(** The double quote character. *)
Definition DQ : string := String (Ascii.ascii_of_nat 34) EmptyString.

(** [fmt.Sprintf("%d", n)]. *)
Definition fmt_d (n : Z) : string := pretty n.

(** ** Data model (lines 37-80) *)

Record Configuration := {
  AccountID : string;
  AccessToken : string;
  BaseURL : string
}.

Definition defaultBaseURL : string := "https://api.harvestapp.com/v2".

(** The Resty client inside [HarvestClient] only fixes the base URL and the
    request headers, both taken from [config]; the HTTP exchange itself is
    modelled by [Response] below. *)
Record HarvestClient := {
  config : Configuration
}.

Record Project := {
  Project_ID : Z;
  Project_Name : string
}.

Record Task := {
  Task_ID : Z;
  Task_Name : string
}.

Record ListItem := {
  ListItem_ID : Z;
  ListItem_Name : string
}.

Definition FilterValue (i : ListItem) : string := ListItem_Name i.
Definition Title (i : ListItem) : string := ListItem_Name i.
Definition Description (i : ListItem) : string := "ID: " +:+ fmt_d (ListItem_ID i).

(** ** Results of fallible calls *)

(** A Go result pair [(v, err)]: either [err != nil] or a value. *)
Inductive Outcome (A : Type) : Type :=
| Failed (err : string)
| Returned (v : A).
Arguments Failed {A} err.
Arguments Returned {A} v.

(** What a Resty request hands back: [err != nil] (the request could not be
    carried out), or a response with its status code, raw body and the
    decoded [Result()]. *)
Inductive Response (A : Type) : Type :=
| TransportError (err : string)
| Reply (StatusCode : Z) (body : string) (result : A).
Arguments TransportError {A} err.
Arguments Reply {A} StatusCode body result.

(** Resty's [Response.IsError]: status code above 399. *)
Definition IsError (StatusCode : Z) : bool := 399 <? StatusCode.

(** ** Iteration over a Go map *)

(** [for _, v := range m] visits every entry of the map exactly once, in an
    order the language leaves unspecified. *)
Class MapRange := {
  range_map : forall V : Type, gmap Z V -> list (Z * V);
  range_map_perm : forall (V : Type) (m : gmap Z V), range_map V m ≡ₚ map_to_list m
}.
Arguments range_map {_ V} m.

(** One possible runtime: visit the entries in the order in which the
    finite map stores them. *)
Definition range_in_store_order : MapRange :=
  {| range_map := fun V m => map_to_list m;
     range_map_perm := fun V m => reflexivity (map_to_list m) |}.

(** ** Service client (lines 100-290) *)

Definition NewHarvestClient (c : Configuration) : HarvestClient :=
  let c := if String.eqb (BaseURL c) EmptyString
           then {| AccountID := AccountID c; AccessToken := AccessToken c;
                   BaseURL := defaultBaseURL |}
           else c in
  {| config := c |}.

(** [TestConnection]: [nil] is [None]. *)
Definition TestConnection (resp : Response unit) : option string :=
  match resp with
  | TransportError err => Some err
  | Reply status body _ =>
      if IsError status
      then Some ("API connection test failed: Status=" +:+ fmt_d status
                 +:+ ", Body=" +:+ body)
      else None
  end.

(** The decoded [time_entries] element of [GetProjects]. *)
Record ProjectEntry := { entry_Project : Project }.

(** The decoded [time_entries] element of [GetTasks]. *)
Record TaskEntry := { entry_Task : Task }.

Section Listing.
Context {R : MapRange}.

(** Lines 172-179: [projectMap[entry.Project.ID] = Project{...}] for each
    entry in turn. *)
Definition projectMap (TimeEntries : list ProjectEntry) : gmap Z Project :=
  foldl (fun pm entry =>
           <[ Project_ID (entry_Project entry) :=
                {| Project_ID := Project_ID (entry_Project entry);
                   Project_Name := Project_Name (entry_Project entry) |} ]> pm)
        ∅ TimeEntries.

Definition GetProjects (resp : Response (list ProjectEntry)) : Outcome (list Project) :=
  match resp with
  | TransportError err => Failed err
  | Reply status body TimeEntries =>
      if IsError status
      then Failed "Failed to fetch projects: <nil>"
      else
        let pm := projectMap TimeEntries in
        let projects :=
          foldl (fun projects kv => projects ++ [kv.2]) [] (range_map pm) in
        Returned projects
  end.

(** Lines 219-226. *)
Definition taskMap (TimeEntries : list TaskEntry) : gmap Z Task :=
  foldl (fun tm entry =>
           <[ Task_ID (entry_Task entry) :=
                {| Task_ID := Task_ID (entry_Task entry);
                   Task_Name := Task_Name (entry_Task entry) |} ]> tm)
        ∅ TimeEntries.

(** [projectID] only selects the URL of the request, whose answer is
    [resp]. *)
Definition GetTasks (projectID : Z) (resp : Response (list TaskEntry)) : Outcome (list Task) :=
  match resp with
  | TransportError err => Failed err
  | Reply status body TimeEntries =>
      if IsError status
      then Failed ("API error: Status=" +:+ fmt_d status +:+ ", Body=" +:+ body)
      else
        let tm := taskMap TimeEntries in
        let tasks :=
          foldl (fun tasks kv => tasks ++ [kv.2]) [] (range_map tm) in
        Returned tasks
  end.
End Listing.

(** ** Which of several entries with one identifier is meant *)

(** [e] occurs in [es] and no later entry has its key. *)
Definition last_with_key {E : Type} (key : E -> Z) (e : E) (es : list E) : Prop :=
  exists pre post, es = pre ++ e :: post /\ forall e', e' ∈ post -> key e' <> key e.

(** [e] occurs in [es] and no earlier entry has its key. *)
Definition first_with_key {E : Type} (key : E -> Z) (e : E) (es : list E) : Prop :=
  exists pre post, es = pre ++ e :: post /\ forall e', e' ∈ pre -> key e' <> key e.

Definition ProjectEntry_key (e : ProjectEntry) : Z := Project_ID (entry_Project e).
Definition TaskEntry_key (e : TaskEntry) : Z := Task_ID (entry_Task e).

(** ** The user-interface toolkit *)

(** Types that belong to Bubble Tea, Bubbles and the Go runtime. *)
Class Toolkit := {
  (** [tea.KeyMsg] and its [String()] rendering (["enter"], ["esc"], ["q"],
      ["ctrl+c"], ["?"], ["a"], ...). *)
  KeyMsg : Type;
  KeyMsg_String : KeyMsg -> string;
  (** Every other [tea.Msg] the runtime may deliver (cursor blinking, filter
      results, ...). *)
  ForeignMsg : Type;
  (** The [tea.Cmd] values that Bubbles components return; one of them may
      be the toolkit's own [tea.Quit]. *)
  ForeignCmd : Type;
  float64 : Type;
  textinput_Model : Type;
  list_Model : Type
}.

Section Engine.
Context {TK : Toolkit}.

Record Timer := {
  Timer_ID : Z;
  Timer_Notes : string;
  Timer_Hours : float64;
  Timer_ProjectID : Z;
  Timer_TaskID : Z;
  Timer_IsRunning : bool
}.

(** *** Remaining client operations (lines 236-290) *)

Definition StartTimer (projectID taskID : Z) (notes : string)
    (resp : Response Timer) : Outcome Timer :=
  match resp with
  | TransportError err => Failed err
  | Reply status body timerResp =>
      if IsError status
      then Failed ("API error: Status=" +:+ fmt_d status +:+ ", Body=" +:+ body)
      else Returned {| Timer_ID := Timer_ID timerResp;
                       Timer_Notes := Timer_Notes timerResp;
                       Timer_Hours := Timer_Hours timerResp;
                       Timer_ProjectID := Timer_ProjectID timerResp;
                       Timer_TaskID := Timer_TaskID timerResp;
                       Timer_IsRunning := Timer_IsRunning timerResp |}
  end.

(** [StopTimer]: [nil] is [None]. *)
Definition StopTimer (timerID : Z) (resp : Response unit) : option string :=
  match resp with
  | TransportError err => Some err
  | Reply status body _ =>
      if IsError status
      then Some ("API error: Status=" +:+ fmt_d status +:+ ", Body=" +:+ body)
      else None
  end.

(** *** Messages (lines 324-331) *)

Inductive Msg : Type :=
| Key (k : KeyMsg)
| fetchProjectsMsg (projects : list Project)
| fetchTasksMsg (tasks : list Task)
| startTimerMsg (timer : option Timer)
| stopTimerMsg (success : bool)
| errorMsg (error : string)
| WindowSizeMsg (Width Height : Z)
| Foreign (x : ForeignMsg).

(** *** Commands (lines 555-597)

    A [tea.Cmd] is a function the runtime calls on a worker to obtain the
    next message; [nil] is [None : option Cmd].  The first five are the
    commands the program builds itself.  [ForeignC c] is a command that a
    Bubbles component returned and that [Update] hands on as it is; the
    constructor records where the command comes from and says nothing
    about what it does, which may be to quit. *)
Inductive Cmd : Type :=
| tea_Quit
| fetchProjects (client : HarvestClient)
| fetchTasks (client : HarvestClient) (projectID : Z)
| startTimer (client : HarvestClient) (projectID taskID : Z) (notes : string)
| stopTimer (client : HarvestClient) (timerID : Z)
| ForeignC (c : ForeignCmd).

(** The four remote operations, as opposed to [tea.Quit] and to the
    toolkit's own commands. *)
Definition is_operation (c : option Cmd) : bool :=
  match c with
  | Some (fetchProjects _) | Some (fetchTasks _ _)
  | Some (startTimer _ _ _ _) | Some (stopTimer _ _) => true
  | _ => false
  end.

Section Commands.
Context {R : MapRange}.

(** The bodies of the four command closures, given the answer of the
    remote service. *)
Definition fetchProjects_run (resp : Response (list ProjectEntry)) : Msg :=
  match GetProjects resp with
  | Failed err => errorMsg err
  | Returned projects => fetchProjectsMsg projects
  end.

Definition fetchTasks_run (projectID : Z) (resp : Response (list TaskEntry)) : Msg :=
  match GetTasks projectID resp with
  | Failed err => errorMsg err
  | Returned tasks => fetchTasksMsg tasks
  end.
End Commands.

Definition startTimer_run (projectID taskID : Z) (notes : string)
    (resp : Response Timer) : Msg :=
  match StartTimer projectID taskID notes resp with
  | Failed err => errorMsg err
  | Returned timer => startTimerMsg (Some timer)
  end.

Definition stopTimer_run (timerID : Z) (resp : Response unit) : Msg :=
  match StopTimer timerID resp with
  | Some err => errorMsg err
  | None => stopTimerMsg true
  end.

(** *** Operations of the toolkit *)

Class Bubbles := {
  (** [textinput]: [New], the [Placeholder] and [Width] fields, [Focus]
      (whose returned command the program drops), [Focused], [Value],
      [Update], [View]. *)
  textinput_New : textinput_Model;
  textinput_set_Placeholder : textinput_Model -> string -> textinput_Model;
  textinput_set_Width : textinput_Model -> Z -> textinput_Model;
  textinput_Focus : textinput_Model -> textinput_Model;
  textinput_Focused : textinput_Model -> bool;
  textinput_Value : textinput_Model -> string;
  textinput_Update : textinput_Model -> Msg -> textinput_Model * option ForeignCmd;
  textinput_View : textinput_Model -> string;
  (** [list]: [New] with the default delegate, the [Title] field and the
      two switches set at start-up, [Index], [SetItems] (whose returned
      command the program drops), [SetSize], [Update], [View]. *)
  list_New : list ListItem -> Z -> Z -> list_Model;
  list_configure : list_Model -> string -> list_Model;
  list_Index : list_Model -> Z;
  list_SetItems : list_Model -> list ListItem -> list_Model;
  list_SetSize : list_Model -> Z -> Z -> list_Model;
  list_Update : list_Model -> Msg -> list_Model * option ForeignCmd;
  list_View : list_Model -> string;
  (** Lip Gloss styles (lines 20-35 and 478). *)
  titleStyle_Render : string -> string;
  infoStyle_Render : string -> string;
  errorStyle_Render : string -> string;
  successStyle_Render : string -> string;
  docStyle_Render : string -> string;
  docStyle_GetFrameSize : Z * Z;
  (** [fmt.Sprintf("%.2f", h)]. *)
  fmt_2f : float64 -> string
}.
Context {B : Bubbles}.

(** *** The model (lines 82-98) *)

Record Model := {
  harvestClient : HarvestClient;
  state : string;
  projects : list Project;
  tasks : list Task;
  selectedProject : Project;
  selectedTask : Task;
  ticketInput : textinput_Model;
  projectList : list_Model;
  taskList : list_Model;
  activeTimer : option Timer;
  error : string;
  success : string;
  quitting : bool;
  showHelp : bool
}.

(** Field assignments [m.f = v]. *)
Definition set_state (v : string) (m : Model) : Model :=
  {| harvestClient := harvestClient m; state := v; projects := projects m;
     tasks := tasks m; selectedProject := selectedProject m;
     selectedTask := selectedTask m; ticketInput := ticketInput m;
     projectList := projectList m; taskList := taskList m;
     activeTimer := activeTimer m; error := error m; success := success m;
     quitting := quitting m; showHelp := showHelp m |}.

Definition set_projects (v : list Project) (m : Model) : Model :=
  {| harvestClient := harvestClient m; state := state m; projects := v;
     tasks := tasks m; selectedProject := selectedProject m;
     selectedTask := selectedTask m; ticketInput := ticketInput m;
     projectList := projectList m; taskList := taskList m;
     activeTimer := activeTimer m; error := error m; success := success m;
     quitting := quitting m; showHelp := showHelp m |}.

Definition set_tasks (v : list Task) (m : Model) : Model :=
  {| harvestClient := harvestClient m; state := state m; projects := projects m;
     tasks := v; selectedProject := selectedProject m;
     selectedTask := selectedTask m; ticketInput := ticketInput m;
     projectList := projectList m; taskList := taskList m;
     activeTimer := activeTimer m; error := error m; success := success m;
     quitting := quitting m; showHelp := showHelp m |}.

Definition set_selectedProject (v : Project) (m : Model) : Model :=
  {| harvestClient := harvestClient m; state := state m; projects := projects m;
     tasks := tasks m; selectedProject := v;
     selectedTask := selectedTask m; ticketInput := ticketInput m;
     projectList := projectList m; taskList := taskList m;
     activeTimer := activeTimer m; error := error m; success := success m;
     quitting := quitting m; showHelp := showHelp m |}.

Definition set_selectedTask (v : Task) (m : Model) : Model :=
  {| harvestClient := harvestClient m; state := state m; projects := projects m;
     tasks := tasks m; selectedProject := selectedProject m;
     selectedTask := v; ticketInput := ticketInput m;
     projectList := projectList m; taskList := taskList m;
     activeTimer := activeTimer m; error := error m; success := success m;
     quitting := quitting m; showHelp := showHelp m |}.

Definition set_ticketInput (v : textinput_Model) (m : Model) : Model :=
  {| harvestClient := harvestClient m; state := state m; projects := projects m;
     tasks := tasks m; selectedProject := selectedProject m;
     selectedTask := selectedTask m; ticketInput := v;
     projectList := projectList m; taskList := taskList m;
     activeTimer := activeTimer m; error := error m; success := success m;
     quitting := quitting m; showHelp := showHelp m |}.

Definition set_projectList (v : list_Model) (m : Model) : Model :=
  {| harvestClient := harvestClient m; state := state m; projects := projects m;
     tasks := tasks m; selectedProject := selectedProject m;
     selectedTask := selectedTask m; ticketInput := ticketInput m;
     projectList := v; taskList := taskList m;
     activeTimer := activeTimer m; error := error m; success := success m;
     quitting := quitting m; showHelp := showHelp m |}.

Definition set_taskList (v : list_Model) (m : Model) : Model :=
  {| harvestClient := harvestClient m; state := state m; projects := projects m;
     tasks := tasks m; selectedProject := selectedProject m;
     selectedTask := selectedTask m; ticketInput := ticketInput m;
     projectList := projectList m; taskList := v;
     activeTimer := activeTimer m; error := error m; success := success m;
     quitting := quitting m; showHelp := showHelp m |}.

Definition set_activeTimer (v : option Timer) (m : Model) : Model :=
  {| harvestClient := harvestClient m; state := state m; projects := projects m;
     tasks := tasks m; selectedProject := selectedProject m;
     selectedTask := selectedTask m; ticketInput := ticketInput m;
     projectList := projectList m; taskList := taskList m;
     activeTimer := v; error := error m; success := success m;
     quitting := quitting m; showHelp := showHelp m |}.

Definition set_error (v : string) (m : Model) : Model :=
  {| harvestClient := harvestClient m; state := state m; projects := projects m;
     tasks := tasks m; selectedProject := selectedProject m;
     selectedTask := selectedTask m; ticketInput := ticketInput m;
     projectList := projectList m; taskList := taskList m;
     activeTimer := activeTimer m; error := v; success := success m;
     quitting := quitting m; showHelp := showHelp m |}.

Definition set_success (v : string) (m : Model) : Model :=
  {| harvestClient := harvestClient m; state := state m; projects := projects m;
     tasks := tasks m; selectedProject := selectedProject m;
     selectedTask := selectedTask m; ticketInput := ticketInput m;
     projectList := projectList m; taskList := taskList m;
     activeTimer := activeTimer m; error := error m; success := v;
     quitting := quitting m; showHelp := showHelp m |}.

Definition set_quitting (v : bool) (m : Model) : Model :=
  {| harvestClient := harvestClient m; state := state m; projects := projects m;
     tasks := tasks m; selectedProject := selectedProject m;
     selectedTask := selectedTask m; ticketInput := ticketInput m;
     projectList := projectList m; taskList := taskList m;
     activeTimer := activeTimer m; error := error m; success := success m;
     quitting := v; showHelp := showHelp m |}.

Definition set_showHelp (v : bool) (m : Model) : Model :=
  {| harvestClient := harvestClient m; state := state m; projects := projects m;
     tasks := tasks m; selectedProject := selectedProject m;
     selectedTask := selectedTask m; ticketInput := ticketInput m;
     projectList := projectList m; taskList := taskList m;
     activeTimer := activeTimer m; error := error m; success := success m;
     quitting := quitting m; showHelp := v |}.

(** Go [len], as an [int]. *)
Definition len {A : Type} (l : list A) : Z := Z.of_nat (length l).

(** Two's complement wrap-around of a 64-bit [int]. *)
Definition wrap64 (z : Z) : Z := (z + 2 ^ 63) mod 2 ^ 64 - 2 ^ 63.

(** The zero values of [Project] and [Task]. *)
Definition Project_zero : Project := {| Project_ID := 0; Project_Name := EmptyString |}.
Definition Task_zero : Task := {| Task_ID := 0; Task_Name := EmptyString |}.

(** *** Start-up (lines 292-336) *)

Definition initialModel (c : Configuration) : Model :=
  let harvestClient := NewHarvestClient c in
  let ticketInput := textinput_New in
  let ticketInput := textinput_set_Placeholder ticketInput "Ticket-123 - Description of work" in
  let ticketInput := textinput_Focus ticketInput in
  let ticketInput := textinput_set_Width ticketInput 50 in
  let projectList := list_configure (list_New [] 0 0) "Select Project" in
  let taskList := list_configure (list_New [] 0 0) "Select Task" in
  {| harvestClient := harvestClient;
     state := "loading_projects";
     projects := [];
     tasks := [];
     selectedProject := Project_zero;
     selectedTask := Task_zero;
     ticketInput := ticketInput;
     projectList := projectList;
     taskList := taskList;
     activeTimer := None;
     error := EmptyString;
     success := EmptyString;
     quitting := false;
     showHelp := false |}.

Definition Init (m : Model) : option Cmd := Some (fetchProjects (harvestClient m)).
(** *** The transition function (lines 338-476) *)

(** Lines 464-475: the list that is on screen sees the message, and the
    command it returns is returned unchanged. *)
Definition Update_lists (m : Model) (msg : Msg) : Model * option Cmd :=
  if String.eqb (state m) "select_project" then
    let '(l, cmd) := list_Update (projectList m) msg in
    (set_projectList l m, ForeignC <$> cmd)
  else if String.eqb (state m) "select_task" then
    let '(l, cmd) := list_Update (taskList m) msg in
    (set_taskList l m, ForeignC <$> cmd)
  else (m, None).

(** Lines 455-475: what follows the [switch] over the message type.  The
    command of the text field is returned unchanged. *)
Definition Update_components (m : Model) (msg : Msg) : Model * option Cmd :=
  if String.eqb (state m) "enter_details" then
    if textinput_Focused (ticketInput m) then
      let '(t, cmd) := textinput_Update (ticketInput m) msg in
      (set_ticketInput t m, ForeignC <$> cmd)
    else Update_lists m msg
  else Update_lists m msg.

(** Lines 363-405: the ["enter"] key.  A branch that does not [return]
    leaves the [switch] and continues with [Update_components]. *)
Definition Update_enter (m : Model) (msg : Msg) : Model * option Cmd :=
  let m := set_error EmptyString m in
  let m := set_success EmptyString m in
  if String.eqb (state m) "select_project" then
    if 0 <? len (projects m) then
      let idx := list_Index (projectList m) in
      if (0 <=? idx) && (idx <? len (projects m)) then
        (* the index is in range: the default is never used *)
        let m := set_selectedProject
                   (default Project_zero (projects m !! Z.to_nat idx)) m in
        let m := set_state "loading_tasks" m in
        (m, Some (fetchTasks (harvestClient m) (Project_ID (selectedProject m))))
      else Update_components m msg
    else Update_components m msg
  else if String.eqb (state m) "select_task" then
    if 0 <? len (tasks m) then
      let idx := list_Index (taskList m) in
      if (0 <=? idx) && (idx <? len (tasks m)) then
        let m := set_selectedTask
                   (default Task_zero (tasks m !! Z.to_nat idx)) m in
        let m := set_state "enter_details" m in
        let m := set_ticketInput (textinput_Focus (ticketInput m)) m in
        (m, None)
      else Update_components m msg
    else Update_components m msg
  else if String.eqb (state m) "enter_details" then
    if String.eqb (textinput_Value (ticketInput m)) EmptyString then
      (set_error "Please enter ticket number and description" m, None)
    else
      match activeTimer m with
      | Some t => (m, Some (stopTimer (harvestClient m) (Timer_ID t)))
      | None =>
          (m, Some (startTimer (harvestClient m)
                      (Project_ID (selectedProject m))
                      (Task_ID (selectedTask m))
                      (textinput_Value (ticketInput m))))
      end
  else Update_components m msg.

(** Lines 349-362: the ["esc"] key. *)
Definition Update_esc (m : Model) (msg : Msg) : Model * option Cmd :=
  if showHelp m then (set_showHelp false m, None)
  else if String.eqb (state m) "select_task" then
    (set_state "select_project" m, None)
  else if String.eqb (state m) "enter_details" then
    (set_state "select_task" m, None)
  else Update_components m msg.

Definition Update (m : Model) (msg : Msg) : Model * option Cmd :=
  match msg with
  | Key k =>
      let s := KeyMsg_String k in
      if String.eqb s "ctrl+c" || String.eqb s "q" then
        (set_quitting true m, Some tea_Quit)
      else if String.eqb s "?" then
        (set_showHelp (negb (showHelp m)) m, None)
      else if String.eqb s "esc" then Update_esc m msg
      else if String.eqb s "enter" then Update_enter m msg
      else Update_components m msg
  | fetchProjectsMsg ps =>
      let m := set_projects ps m in
      let m := set_state "select_project" m in
      let items :=
        (fun project => {| ListItem_ID := Project_ID project;
                           ListItem_Name := Project_Name project |}) <$> projects m in
      let m := set_projectList (list_SetItems (projectList m) items) m in
      Update_components m msg
  | fetchTasksMsg ts =>
      let m := set_tasks ts m in
      let m := set_state "select_task" m in
      let items :=
        (fun task => {| ListItem_ID := Task_ID task;
                        ListItem_Name := Task_Name task |}) <$> tasks m in
      let m := set_taskList (list_SetItems (taskList m) items) m in
      Update_components m msg
  | startTimerMsg timer =>
      let m := set_activeTimer timer m in
      let m := set_success ("Timer started for: " +:+ textinput_Value (ticketInput m)) m in
      Update_components m msg
  | stopTimerMsg ok =>
      let m := if ok
               then set_activeTimer None (set_success "Timer stopped" m)
               else set_error "Failed to stop timer" m in
      Update_components m msg
  | errorMsg e =>
      let m := set_error e m in
      let m := if String.eqb (state m) "loading_projects"
                  || String.eqb (state m) "loading_tasks"
               then set_state "error" m else m in
      Update_components m msg
  | WindowSizeMsg Width Height =>
      let '(h, v) := docStyle_GetFrameSize in
      let m := set_projectList
                 (list_SetSize (projectList m) (wrap64 (Width - h)) (wrap64 (Height - v))) m in
      let m := set_taskList
                 (list_SetSize (taskList m) (wrap64 (Width - h)) (wrap64 (Height - v))) m in
      Update_components m msg
  | Foreign _ => Update_components m msg
  end.

(** *** Rendering (lines 478-553 and 599-617) *)

Definition helpContent : string :=
  LF +:+ "KEYBOARD SHORTCUTS" +:+ LF +:+
  "  ↑/↓          Navigate through options" +:+ LF +:+
  "  /            Filter the list (start typing to search)" +:+ LF +:+
  "  Enter        Select project/task or start/stop timer" +:+ LF +:+
  "  Esc          Go back to previous screen" +:+ LF +:+
  "  ?            Show/hide this help" +:+ LF +:+
  "  q or Ctrl+C  Quit the application" +:+ LF +:+
  LF +:+ "WORKFLOW" +:+ LF +:+
  "  1. Select a project" +:+ LF +:+
  "  2. Select a task" +:+ LF +:+
  "  3. Enter ticket number and description (e.g., " +:+ DQ +:+
  "TICKET-123 - Add new feature" +:+ DQ +:+ ")" +:+ LF +:+
  "  4. Press Enter to start the timer" +:+ LF +:+
  "  5. Press Enter again to stop the timer" +:+ LF +:+
  LF +:+ "Your Harvest timer will sync automatically with the web interface." +:+ LF.

(** Lines 493-528: the text of the current screen. *)
Definition View_state (m : Model) : string :=
  if String.eqb (state m) "loading_projects" then "Loading projects..." +:+ LF
  else if String.eqb (state m) "loading_tasks" then "Loading tasks..." +:+ LF
  else if String.eqb (state m) "select_project" then list_View (projectList m)
  else if String.eqb (state m) "select_task" then
    "Project: " +:+ Project_Name (selectedProject m) +:+ LF +:+ LF +:+
    list_View (taskList m)
  else if String.eqb (state m) "enter_details" then
    let actionKey := "Enter" in
    let '(status, actionText) :=
      match activeTimer m with
      | Some t =>
          (infoStyle_Render (LF +:+ "Timer running: " +:+ Timer_Notes t +:+ " (" +:+
                             fmt_2f (Timer_Hours t) +:+ " hours)"),
           "Stop Timer")
      | None => (EmptyString, "Start Timer")
      end in
    "Project: " +:+ Project_Name (selectedProject m) +:+ LF +:+
    "Task: " +:+ Task_Name (selectedTask m) +:+ LF +:+ LF +:+
    textinput_View (ticketInput m) +:+ status +:+ LF +:+ LF +:+
    "Press " +:+ actionKey +:+ " to " +:+ actionText
  else if String.eqb (state m) "error" then
    "Error: " +:+ error m +:+ LF +:+ "Press q to quit."
  else EmptyString.

(** Lines 530-538: the inline error and success messages. *)
Definition View_messages (m : Model) (s : string) : string :=
  let s := if negb (String.eqb (error m) EmptyString)
              && negb (String.eqb (state m) "error")
           then s +:+ LF +:+ LF +:+ errorStyle_Render ("Error: " +:+ error m)
           else s in
  let s := if negb (String.eqb (success m) EmptyString)
           then s +:+ LF +:+ LF +:+ successStyle_Render ("✓ " +:+ success m)
           else s in
  s.

(** Lines 541-550. *)
Definition View_footer (m : Model) : string :=
  if String.eqb (state m) "select_project" || String.eqb (state m) "select_task" then
    LF +:+ LF +:+ "Press ↑/↓ to navigate, / to filter, Enter to select, Esc to go back, ? for help, q to quit"
  else if String.eqb (state m) "enter_details" then
    LF +:+ LF +:+ "Press Enter to start/stop timer, Esc to go back, ? for help, q to quit"
  else LF +:+ LF +:+ "Press ? for help, q to quit".

(** The document handed to [docStyle.Render] on line 552. *)
Definition View_document (m : Model) : string :=
  let title := titleStyle_Render "✓ Harvest Timer TUI" in
  let s := View_messages m (View_state m) in
  let header := title +:+ LF +:+ LF in
  let footer := View_footer m in
  header +:+ s +:+ footer.

Definition View (m : Model) : string :=
  if quitting m then "Bye!" +:+ LF
  else
    let title := titleStyle_Render "✓ Harvest Timer TUI" in
    if showHelp m then docStyle_Render (title +:+ LF +:+ LF +:+ helpContent)
    else docStyle_Render (View_document m).

End Engine.

(** ** The event loop

    Bubble Tea runs the program: it calls [Init], then feeds [Update] one
    message at a time, in order of arrival.  A command returned by [Update]
    runs on a worker; the message it produces joins the same queue as the
    keystrokes.  [tea.Quit] ends the loop once its message is dequeued, be
    it the program's own or one that a component returned.
    The [history] records, in order, every message delivered and every
    command issued. *)

Section EventLoop.
Context {TK : Toolkit} {B : Bubbles} {R : MapRange}.

(** What the outside world supplies when a command finishes. *)
Inductive Answer : Type :=
| ProjectsAnswer (resp : Response (list ProjectEntry))
| TasksAnswer (resp : Response (list TaskEntry))
| StartAnswer (resp : Response Timer)
| StopAnswer (resp : Response unit)
| ForeignAnswer (x : ForeignMsg)
| QuitAnswer.

(** The message a finished command delivers ([None]: the answer is not one
    this command can receive). *)
Definition perform (c : Cmd) (a : Answer) : option Msg :=
  match c, a with
  | fetchProjects _, ProjectsAnswer resp => Some (fetchProjects_run resp)
  | fetchTasks _ projectID, TasksAnswer resp => Some (fetchTasks_run projectID resp)
  | startTimer _ projectID taskID notes, StartAnswer resp =>
      Some (startTimer_run projectID taskID notes resp)
  | stopTimer _ timerID, StopAnswer resp => Some (stopTimer_run timerID resp)
  | ForeignC _, ForeignAnswer x => Some (Foreign x)
  | _, _ => None
  end.

(** The finished command produced [tea.QuitMsg]: the program's [tea.Quit]
    always does, a command of a component does when the outside world says
    so. *)
Definition quits (c : Cmd) (a : Answer) : bool :=
  match c, a with
  | tea_Quit, _ => true
  | ForeignC _, QuitAnswer => true
  | _, _ => false
  end.

Inductive Event : Type :=
| Press (k : KeyMsg)
| Resize (Width Height : Z)
| Incoming (x : ForeignMsg)
| Complete (n : nat) (a : Answer).

Inductive Entry : Type :=
| Input (msg : Msg)
| Completed (c : Cmd) (a : Answer) (msg : Msg)
| Issued (c : Cmd).

Record World := {
  model : Model;
  inflight : list Cmd;
  halted : bool;
  history : list Entry
}.

Definition boot (c : Configuration) : World :=
  let m := initialModel c in
  {| model := m;
     inflight := option_list (Init m);
     halted := false;
     history := Issued <$> option_list (Init m) |}.

(** One call of [Update], recorded as [e]. *)
Definition dispatch (w : World) (pending : list Cmd) (e : Entry) (msg : Msg) : World :=
  let '(m, cmd) := Update (model w) msg in
  {| model := m;
     inflight := pending ++ option_list cmd;
     halted := halted w;
     history := history w ++ e :: (Issued <$> option_list cmd) |}.

Definition step (w : World) (ev : Event) : World :=
  if halted w then w
  else
    match ev with
    | Press k => dispatch w (inflight w) (Input (Key k)) (Key k)
    | Resize Width Height =>
        dispatch w (inflight w) (Input (WindowSizeMsg Width Height))
                 (WindowSizeMsg Width Height)
    | Incoming x => dispatch w (inflight w) (Input (Foreign x)) (Foreign x)
    | Complete n a =>
        match inflight w !! n with
        | None => w
        | Some c =>
            if quits c a then
              {| model := model w; inflight := delete n (inflight w);
                 halted := true; history := history w |}
            else
              match perform c a with
              | None => w
              | Some msg => dispatch w (delete n (inflight w)) (Completed c a msg) msg
              end
        end
    end.

Definition run (w : World) (evs : list Event) : World := foldl step w evs.

(** A text field that never sees the [q] key: [textinput.Update] is skipped
    for that message, everything else is [B]. *)
Definition without_q : Bubbles :=
  {| textinput_New := textinput_New;
     textinput_set_Placeholder := textinput_set_Placeholder;
     textinput_set_Width := textinput_set_Width;
     textinput_Focus := textinput_Focus;
     textinput_Focused := textinput_Focused;
     textinput_Value := textinput_Value;
     textinput_Update := fun t msg =>
       match msg with
       | Key k => if String.eqb (KeyMsg_String k) "q" then (t, None)
                  else textinput_Update t msg
       | _ => textinput_Update t msg
       end;
     textinput_View := textinput_View;
     list_New := list_New;
     list_configure := list_configure;
     list_Index := list_Index;
     list_SetItems := list_SetItems;
     list_SetSize := list_SetSize;
     list_Update := list_Update;
     list_View := list_View;
     titleStyle_Render := titleStyle_Render;
     infoStyle_Render := infoStyle_Render;
     errorStyle_Render := errorStyle_Render;
     successStyle_Render := successStyle_Render;
     docStyle_Render := docStyle_Render;
     docStyle_GetFrameSize := docStyle_GetFrameSize;
     fmt_2f := fmt_2f |}.
End EventLoop.

(** ** A plain toolkit

    A small stand-in for Bubbles on which the engine can be evaluated: a key
    is the text of its [String()]; the text field appends the printable keys
    it receives while focused and deletes on ["backspace"]; the list moves
    its cursor on ["up"] and ["down"]; styles render text unchanged. *)

Definition plain_toolkit : Toolkit :=
  {| KeyMsg := string;
     KeyMsg_String := fun k => k;
     ForeignMsg := unit;
     ForeignCmd := unit;
     float64 := Z;
     textinput_Model := string * bool;
     list_Model := list ListItem * Z |}.

Definition plain_textinput_Update (t : string * bool) (msg : @Msg plain_toolkit)
    : (string * bool) * option unit :=
  match msg with
  | Key k =>
      if negb t.2 then (t, None)
      else if String.eqb k "backspace" then
        (String.substring 0 (String.length t.1 - 1) t.1, t.2, None)
      else if Nat.eqb (String.length k) 1 then (t.1 +:+ k, t.2, None)
      else (t, None)
  | _ => (t, None)
  end.

Definition plain_list_Update (l : list ListItem * Z) (msg : @Msg plain_toolkit)
    : (list ListItem * Z) * option unit :=
  match msg with
  | Key k =>
      if String.eqb k "down" then
        (l.1, if l.2 + 1 <? Z.of_nat (length l.1) then l.2 + 1 else l.2, None)
      else if String.eqb k "up" then
        (l.1, if 0 <? l.2 then l.2 - 1 else l.2, None)
      else (l, None)
  | _ => (l, None)
  end.

Definition plain_bubbles : @Bubbles plain_toolkit :=
  @Build_Bubbles plain_toolkit
    (* textinput: New, Placeholder, Width, Focus, Focused, Value, Update, View *)
    ((EmptyString, false) : string * bool)
    (fun (t : string * bool) _ => t)
    (fun (t : string * bool) _ => t)
    (fun (t : string * bool) => (t.1, true))
    (fun (t : string * bool) => t.2)
    (fun (t : string * bool) => t.1)
    plain_textinput_Update
    (fun (t : string * bool) => "> " +:+ t.1)
    (* list: New, configure, Index, SetItems, SetSize, Update, View *)
    (fun items _ _ => ((items, 0) : list ListItem * Z))
    (fun (l : list ListItem * Z) _ => l)
    (fun (l : list ListItem * Z) => l.2)
    (fun (l : list ListItem * Z) items => (items, l.2))
    (fun (l : list ListItem * Z) _ _ => l)
    plain_list_Update
    (fun (l : list ListItem * Z) =>
       foldr (fun i s => Title i +:+ LF +:+ s) EmptyString l.1)
    (* the five styles and the frame size *)
    (fun s => s) (fun s => s) (fun s => s) (fun s => s) (fun s => s)
    (4, 2)
    (* two decimals of a number of hundredths *)
    (fun (h : Z) =>
       pretty (h / 100) +:+ "." +:+ pretty (h mod 100 / 10) +:+ pretty (h mod 10)).

(** ** Vocabulary of the properties *)

(** [text] appears in [doc]. *)
Definition shows (text doc : string) : Prop :=
  exists pre post, doc = pre +:+ text +:+ post.


Section Frames.
Context {TK : Toolkit}.

(** [m'] differs from [m] at most in the three toolkit components (the
    text field and the two lists). *)
Definition same_but_components (m m' : Model) : Prop :=
  harvestClient m' = harvestClient m /\
  state m' = state m /\
  projects m' = projects m /\
  tasks m' = tasks m /\
  selectedProject m' = selectedProject m /\
  selectedTask m' = selectedTask m /\
  activeTimer m' = activeTimer m /\
  error m' = error m /\
  success m' = success m /\
  quitting m' = quitting m /\
  showHelp m' = showHelp m.
End Frames.

(** ** A session on the plain toolkit

    Projects [{1,"Alpha"}], tasks [{10,"Build"}]: the lists arrive, the user
    selects both, types a note and starts the timer. *)

Definition demo_config : Configuration :=
  {| AccountID := "42"; AccessToken := "token"; BaseURL := EmptyString |}.

Definition demo_projects : Response (list ProjectEntry) :=
  Reply 200 EmptyString
    [ {| entry_Project := {| Project_ID := 1; Project_Name := "Alpha" |} |} ].

Definition demo_tasks : Response (list TaskEntry) :=
  Reply 200 EmptyString
    [ {| entry_Task := {| Task_ID := 10; Task_Name := "Build" |} |} ].

Definition demo_timer : @Timer plain_toolkit :=
  @Build_Timer plain_toolkit 7 "x" (0 : Z) 1 10 true.

Definition demo_boot : @World plain_toolkit :=
  @boot plain_toolkit plain_bubbles demo_config.

Definition demo_run (w : @World plain_toolkit) (evs : list (@Event plain_toolkit))
    : @World plain_toolkit :=
  @run plain_toolkit plain_bubbles range_in_store_order w evs.

(** Up to the task list being on screen. *)
Definition demo_to_tasks : list (@Event plain_toolkit) :=
  [ Complete 0 (ProjectsAnswer demo_projects);
    Press ("enter" : @KeyMsg plain_toolkit);
    Complete 0 (TasksAnswer demo_tasks) ].

(** Up to the timer running with note ["x"]. *)
Definition demo_to_timer : list (@Event plain_toolkit) :=
  demo_to_tasks ++
  [ Press ("enter" : @KeyMsg plain_toolkit);
    Press ("x" : @KeyMsg plain_toolkit);
    Press ("enter" : @KeyMsg plain_toolkit);
    Complete 0 (StartAnswer (Reply 201 EmptyString demo_timer)) ].

(** Models reached along the session. *)
Definition demo_projects_model : @Model plain_toolkit :=
  model (demo_run demo_boot [ Complete 0 (ProjectsAnswer demo_projects) ]).

Definition demo_tasks_model : @Model plain_toolkit :=
  model (demo_run demo_boot demo_to_tasks).

Definition demo_details_model : @Model plain_toolkit :=
  model (demo_run demo_boot (demo_to_tasks ++ [ Press ("enter" : @KeyMsg plain_toolkit) ])).

Definition demo_timer_model : @Model plain_toolkit :=
  model (demo_run demo_boot demo_to_timer).

(** The timer is running and the user has deleted the note. *)
Definition demo_erased_model : @Model plain_toolkit :=
  model (demo_run demo_boot
           (demo_to_timer ++ [ Press ("backspace" : @KeyMsg plain_toolkit) ])).

Definition demo_Update (m : @Model plain_toolkit) (msg : @Msg plain_toolkit)
    : @Model plain_toolkit * option (@Cmd plain_toolkit) :=
  @Update plain_toolkit plain_bubbles m msg.

Section Orderings.
Context {TK : Toolkit} {R : MapRange}.

(** The history [h] records that [listRecentProjects] completed and
    returned at least one project. *)
Definition projects_arrived (h : list Entry) : Prop :=
  exists client resp ps,
    Completed (fetchProjects client) (ProjectsAnswer resp) (fetchProjectsMsg ps) ∈ h /\
    GetProjects resp = Returned ps /\
    ps <> [].

(** Every [fetchTasks] issued in [h] comes after such a completion. *)
Definition tasks_after_projects (h : list Entry) : Prop :=
  forall pre post client projectID,
    h = pre ++ Issued (fetchTasks client projectID) :: post ->
    projects_arrived pre.
(** What a run maintains: a stored project means the project list has
    arrived, and every [fetchTasks] issued so far came after that. *)
Definition loop_invariant (w : World) : Prop :=
  (projects (model w) <> [] -> projects_arrived (history w)) /\
  tasks_after_projects (history w).

End Orderings.

(** A key press on the plain toolkit. *)
Definition demo_key (s : string) : @Msg plain_toolkit := @Key plain_toolkit s.

(** The project list arrived empty. *)
Definition demo_no_projects_model : @Model plain_toolkit :=
  model (demo_run demo_boot [ Complete 0 (ProjectsAnswer (Reply 200 EmptyString [])) ]).


(** ** Start of the process (lines 619-649)

    [main] reads the two environment variables, probes the service once and
    then hands the initial model to Bubble Tea.  The environment and the
    answer to the probe are inputs; what [main] does next is the result. *)

Section Main.
Context {TK : Toolkit} {B : Bubbles}.

Inductive Startup : Type :=
| log_Fatal (msg : string)
    (* [log.Fatal]: the text goes to standard error, exit status 1 *)
| os_Exit (stdout : string) (code : Z)
    (* the text printed, then [os.Exit(code)] *)
| tea_Run (m : Model).
    (* [tea.NewProgram(model, tea.WithAltScreen()).Run()] *)

Definition main (HARVEST_ACCOUNT_ID HARVEST_ACCESS_TOKEN : string)
    (probe : Response unit) : Startup :=
  let config := {| AccountID := HARVEST_ACCOUNT_ID;
                   AccessToken := HARVEST_ACCESS_TOKEN;
                   BaseURL := EmptyString |} in
  if String.eqb (AccountID config) EmptyString
     || String.eqb (AccessToken config) EmptyString
  then log_Fatal "HARVEST_ACCOUNT_ID and HARVEST_ACCESS_TOKEN environment variables must be set"
  else
    match TestConnection probe with
    | Some err =>
        os_Exit (LF +:+ "⛔ ERROR: " +:+ err +:+ LF +:+ LF +:+
                 "Please check your Harvest API credentials and access." +:+ LF) 1
    | None => tea_Run (initialModel config)
    end.
End Main.

Section Replay.
Context {TK : Toolkit} {B : Bubbles}.

(** The model after a sequence of messages, commands left aside. *)
Definition Update_all (m : Model) (msgs : list Msg) : Model :=
  foldl (fun m msg => (Update m msg).1) m msgs.
End Replay.

(** ** The steps of the state machine *)

Section Steps.
Context {TK : Toolkit}.

(** The command is a listing request. *)
Definition is_fetchProjects (c : Cmd) : bool :=
  match c with fetchProjects _ => true | _ => false end.

Definition is_fetchTasks (c : Cmd) : bool :=
  match c with fetchTasks _ _ => true | _ => false end.

Definition is_listing (c : Cmd) : bool := is_fetchProjects c || is_fetchTasks c.

(** The six names the program gives to [state]. *)
Definition known_state (s : string) : Prop :=
  s = "loading_projects" \/ s = "select_project" \/ s = "loading_tasks" \/
  s = "select_task" \/ s = "enter_details" \/ s = "error".

(** The ways in which one call of [Update] on [m] and [msg] can lead to
    [m'] and the command [c], as far as the state, the two candidate lists
    and the two selections go. *)
Inductive Step (m : Model) (msg : Msg) (m' : Model) (c : option Cmd) : Prop :=
| Step_stay :
    state m' = state m ->
    projects m' = projects m -> tasks m' = tasks m ->
    selectedProject m' = selectedProject m -> selectedTask m' = selectedTask m ->
    (forall x, c = Some x -> is_listing x = false) ->
    (forall ps, msg <> fetchProjectsMsg ps) -> (forall ts, msg <> fetchTasksMsg ts) ->
    Step m msg m' c
| Step_projects_arrive (ps : list Project) :
    msg = fetchProjectsMsg ps ->
    state m' = "select_project" ->
    projects m' = ps -> tasks m' = tasks m ->
    selectedProject m' = selectedProject m -> selectedTask m' = selectedTask m ->
    (forall x, c = Some x -> is_listing x = false) ->
    Step m msg m' c
| Step_tasks_arrive (ts : list Task) :
    msg = fetchTasksMsg ts ->
    state m' = "select_task" ->
    projects m' = projects m -> tasks m' = ts ->
    selectedProject m' = selectedProject m -> selectedTask m' = selectedTask m ->
    (forall x, c = Some x -> is_listing x = false) ->
    Step m msg m' c
| Step_loading_fails (e : string) :
    msg = errorMsg e ->
    state m = "loading_projects" \/ state m = "loading_tasks" ->
    state m' = "error" ->
    projects m' = projects m -> tasks m' = tasks m ->
    selectedProject m' = selectedProject m -> selectedTask m' = selectedTask m ->
    (forall x, c = Some x -> is_listing x = false) ->
    Step m msg m' c
| Step_back_to_projects (k : KeyMsg) :
    msg = Key k -> KeyMsg_String k = "esc" ->
    state m = "select_task" -> state m' = "select_project" ->
    projects m' = projects m -> tasks m' = tasks m ->
    selectedProject m' = selectedProject m -> selectedTask m' = selectedTask m ->
    c = None ->
    Step m msg m' c
| Step_back_to_tasks (k : KeyMsg) :
    msg = Key k -> KeyMsg_String k = "esc" ->
    state m = "enter_details" -> state m' = "select_task" ->
    projects m' = projects m -> tasks m' = tasks m ->
    selectedProject m' = selectedProject m -> selectedTask m' = selectedTask m ->
    c = None ->
    Step m msg m' c
| Step_pick_project (k : KeyMsg) (p : Project) :
    msg = Key k -> KeyMsg_String k = "enter" ->
    state m = "select_project" -> state m' = "loading_tasks" ->
    p ∈ projects m ->
    projects m' = projects m -> tasks m' = tasks m ->
    selectedProject m' = p -> selectedTask m' = selectedTask m ->
    c = Some (fetchTasks (harvestClient m) (Project_ID p)) ->
    Step m msg m' c
| Step_pick_task (k : KeyMsg) (t : Task) :
    msg = Key k -> KeyMsg_String k = "enter" ->
    state m = "select_task" -> state m' = "enter_details" ->
    t ∈ tasks m ->
    projects m' = projects m -> tasks m' = tasks m ->
    selectedProject m' = selectedProject m -> selectedTask m' = t ->
    c = None ->
    Step m msg m' c.

(** In-flight commands of one kind. *)
Definition at_most_one (P : Cmd -> bool) (l : list Cmd) : Prop :=
  forall i j c d,
    l !! i = Some c -> l !! j = Some d -> P c = true -> P d = true -> i = j.

Definition some_of (P : Cmd -> bool) (l : list Cmd) : Prop :=
  exists c, c ∈ l /\ P c = true.

Definition none_of (P : Cmd -> bool) (l : list Cmd) : Prop :=
  forall c, c ∈ l -> P c = false.

(** What every run keeps true of the listing requests and the selections. *)
Definition listing_discipline (w : World) : Prop :=
  at_most_one is_fetchProjects (inflight w) /\
  at_most_one is_fetchTasks (inflight w) /\
  (some_of is_fetchProjects (inflight w) ->
   projects (model w) = [] /\ none_of is_fetchTasks (inflight w)) /\
  (some_of is_fetchTasks (inflight w) ->
   (state (model w) = "loading_tasks" \/ state (model w) = "error") /\
   selectedProject (model w) ∈ projects (model w)) /\
  (state (model w) = "loading_tasks" \/ state (model w) = "select_task" \/
   state (model w) = "enter_details" ->
   selectedProject (model w) ∈ projects (model w)) /\
  (state (model w) = "enter_details" ->
   selectedTask (model w) ∈ tasks (model w)) /\
  known_state (state (model w)).
End Steps.

(** The details screen with the note ["x"] typed and no timer yet. *)
Definition demo_typed_model : @Model plain_toolkit :=
  model (demo_run demo_boot
           (demo_to_tasks ++
            [ Press ("enter" : @KeyMsg plain_toolkit);
              Press ("x" : @KeyMsg plain_toolkit) ])).

(** The project has been picked and its tasks are being fetched. *)
Definition demo_to_loading_tasks : list (@Event plain_toolkit) :=
  [ Complete 0 (ProjectsAnswer demo_projects);
    Press ("enter" : @KeyMsg plain_toolkit) ].

Definition demo_boot_model : @Model plain_toolkit := model demo_boot.

Definition demo_main (account token : string) (probe : Response unit)
    : @Startup plain_toolkit :=
  @main plain_toolkit plain_bubbles account token probe.

(** ** A toolkit with rune keys

    Key messages as Bubble Tea builds them: either the runes that one read
    from the terminal produced (one rune for a single key press, several for
    a fast burst or a paste), with or without the alt modifier, or a named
    key.  [String()] is the runes themselves, prefixed by ["alt+"] under the
    modifier, or the name.  The text field inserts the runes of a rune
    message at the end of its value while it is focused, and deletes on
    ["backspace"]; what it does with the alt modifier is left out (the
    value is unchanged).  Lists and styles are those of the plain
    toolkit. *)

Inductive rune_key : Type :=
| Runes (alt : bool) (text : string)
| Named (name : string).

Definition rune_key_String (k : rune_key) : string :=
  match k with
  | Runes false text => text
  | Runes true text => "alt+" +:+ text
  | Named name => name
  end.

Definition rune_toolkit : Toolkit :=
  {| KeyMsg := rune_key;
     KeyMsg_String := rune_key_String;
     ForeignMsg := unit;
     ForeignCmd := unit;
     float64 := Z;
     textinput_Model := string * bool;
     list_Model := list ListItem * Z |}.

Definition rune_textinput_Update (t : string * bool) (msg : @Msg rune_toolkit)
    : (string * bool) * option unit :=
  match msg with
  | Key (Runes false text) => if t.2 then (t.1 +:+ text, t.2, None) else (t, None)
  | Key (Named name) =>
      if t.2 && String.eqb name "backspace"
      then (String.substring 0 (String.length t.1 - 1) t.1, t.2, None)
      else (t, None)
  | _ => (t, None)
  end.

Definition rune_list_Update (l : list ListItem * Z) (msg : @Msg rune_toolkit)
    : (list ListItem * Z) * option unit :=
  match msg with
  | Key (Named name) =>
      if String.eqb name "down" then
        (l.1, if l.2 + 1 <? Z.of_nat (length l.1) then l.2 + 1 else l.2, None)
      else if String.eqb name "up" then
        (l.1, if 0 <? l.2 then l.2 - 1 else l.2, None)
      else (l, None)
  | _ => (l, None)
  end.

Definition rune_bubbles : @Bubbles rune_toolkit :=
  @Build_Bubbles rune_toolkit
    ((EmptyString, false) : string * bool)
    (fun (t : string * bool) _ => t)
    (fun (t : string * bool) _ => t)
    (fun (t : string * bool) => (t.1, true))
    (fun (t : string * bool) => t.2)
    (fun (t : string * bool) => t.1)
    rune_textinput_Update
    (fun (t : string * bool) => "> " +:+ t.1)
    (fun items _ _ => ((items, 0) : list ListItem * Z))
    (fun (l : list ListItem * Z) _ => l)
    (fun (l : list ListItem * Z) => l.2)
    (fun (l : list ListItem * Z) items => (items, l.2))
    (fun (l : list ListItem * Z) _ _ => l)
    rune_list_Update
    (fun (l : list ListItem * Z) =>
       foldr (fun i s => Title i +:+ LF +:+ s) EmptyString l.1)
    (fun s => s) (fun s => s) (fun s => s) (fun s => s) (fun s => s)
    (4, 2)
    (fun (h : Z) =>
       pretty (h / 100) +:+ "." +:+ pretty (h mod 100 / 10) +:+ pretty (h mod 10)).

(** The session up to the details screen, notes focused and empty. *)
Definition rune_to_details : list (@Event rune_toolkit) :=
  [ Complete 0 (ProjectsAnswer demo_projects);
    Press (Named "enter" : @KeyMsg rune_toolkit);
    Complete 0 (TasksAnswer demo_tasks);
    Press (Named "enter" : @KeyMsg rune_toolkit) ].

Definition rune_run (evs : list (@Event rune_toolkit)) : @World rune_toolkit :=
  @run rune_toolkit rune_bubbles range_in_store_order
    (@boot rune_toolkit rune_bubbles demo_config) evs.

(** * Properties *)

(** ** The service client *)

Section ListingFacts.
Context {R : MapRange}.

Lemma foldl_collect {V : Type} (l : list (Z * V)) (acc : list V) :
  foldl (fun vs kv => vs ++ [kv.2]) acc l = acc ++ l.*2.
Proof.
  revert acc. induction l as [|kv l IH]; intros acc; simpl.
  - by rewrite app_nil_r.
  - rewrite IH. by rewrite <- app_assoc.
Qed.

(** The map built by assigning [val e] at [key e] for each entry in turn
    holds, at every key, the value of the last entry with that key. *)
Lemma assign_each_lookup {E V : Type} (key : E -> Z) (val : E -> V)
    (es : list E) (k : Z) (v : V) :
  foldl (fun m e => <[key e := val e]> m) (∅ : gmap Z V) es !! k = Some v <->
  exists pre e post,
    es = pre ++ e :: post /\ key e = k /\ val e = v /\
    forall e', e' ∈ post -> key e' <> k.
Proof.
  revert v. induction es as [|x es IH] using rev_ind; intros v.
  - simpl. rewrite lookup_empty. split; [done|].
    intros (pre & e & post & Heq & _). by destruct pre.
  - rewrite foldl_app. simpl.
    destruct (decide (key x = k)) as [Hk|Hk].
    + rewrite Hk, lookup_insert_eq. split.
      * intros [= <-]. exists es, x, []. split_and!; auto.
        intros e' He'. by apply elem_of_nil in He'.
      * intros (pre & e & post & Heq & Hke & Hv & Hlater).
        destruct post as [|y post _] using rev_ind.
        -- apply app_inj_tail in Heq as [_ ->]. by rewrite Hv.
        -- rewrite app_comm_cons, app_assoc in Heq.
           apply app_inj_tail in Heq as [_ ->].
           exfalso. apply (Hlater y); [|done].
           apply elem_of_app. right. by left.
    + rewrite lookup_insert_ne by done. rewrite IH. split.
      * intros (pre & e & post & -> & Hke & Hv & Hlater).
        exists pre, e, (post ++ [x]). split_and!; auto.
        -- by rewrite <- app_assoc.
        -- intros e' [He'|He']%elem_of_app; [by apply Hlater|].
           apply list_elem_of_singleton in He' as ->. done.
      * intros (pre & e & post & Heq & Hke & Hv & Hlater).
        destruct post as [|y post _] using rev_ind.
        -- apply app_inj_tail in Heq as [_ ->]. done.
        -- rewrite app_comm_cons, app_assoc in Heq.
           apply app_inj_tail in Heq as [-> ->].
           exists pre, e, post. split_and!; auto.
           intros e' He'. apply Hlater, elem_of_app. by left.
Qed.

(** Every value stored by such a map sits at the key computed from it. *)
Lemma assign_each_key {E V : Type} (key : E -> Z) (val : E -> V) (vkey : V -> Z)
    (es : list E) :
  (forall e, vkey (val e) = key e) ->
  forall k v, foldl (fun m e => <[key e := val e]> m) (∅ : gmap Z V) es !! k = Some v ->
              vkey v = k.
Proof.
  intros Hkey k v [pre [e [post (_ & <- & <- & _)]]]%assign_each_lookup. apply Hkey.
Qed.

(** Ranging over a map whose values carry their own key yields a list
    without repeated keys. *)
Lemma range_values_NoDup {V : Type} (vkey : V -> Z) (m : gmap Z V) :
  (forall k v, m !! k = Some v -> vkey v = k) ->
  NoDup (vkey <$> (range_map m).*2).
Proof.
  intros Hkey.
  assert (vkey <$> (range_map m).*2 = (range_map m).*1) as ->.
  { rewrite <- list_fmap_compose. apply list_fmap_ext.
    intros i [k v] Hi. simpl. apply Hkey.
    apply elem_of_map_to_list. rewrite <- (range_map_perm V m).
    by eapply list_elem_of_lookup_2. }
  rewrite (range_map_perm V m). apply NoDup_fst_map_to_list.
Qed.

Lemma range_values_elem {V : Type} (vkey : V -> Z) (m : gmap Z V) (v : V) :
  (forall k v, m !! k = Some v -> vkey v = k) ->
  v ∈ (range_map m).*2 <-> m !! vkey v = Some v.
Proof.
  intros Hkey. rewrite list_elem_of_fmap. split.
  - intros ([k v'] & -> & Hin). simpl.
    rewrite (range_map_perm V m) in Hin. apply elem_of_map_to_list in Hin.
    by rewrite (Hkey _ _ Hin).
  - intros Hv. exists (vkey v, v). split; [done|].
    rewrite (range_map_perm V m). by apply elem_of_map_to_list.
Qed.

Lemma GetProjects_Returned (resp : Response (list ProjectEntry)) (ps : list Project) :
  GetProjects resp = Returned ps ->
  exists status body entries,
    resp = Reply status body entries /\ IsError status = false /\
    ps = (range_map (projectMap entries)).*2.
Proof.
  destruct resp as [err|status body entries]; simpl; [done|].
  destruct (IsError status) eqn:Hs; [done|].
  intros [= <-]. exists status, body, entries. by rewrite foldl_collect.
Qed.

Lemma GetTasks_Returned (projectID : Z) (resp : Response (list TaskEntry)) (ts : list Task) :
  GetTasks projectID resp = Returned ts ->
  exists status body entries,
    resp = Reply status body entries /\ IsError status = false /\
    ts = (range_map (taskMap entries)).*2.
Proof.
  destruct resp as [err|status body entries]; simpl; [done|].
  destruct (IsError status) eqn:Hs; [done|].
  intros [= <-]. exists status, body, entries. by rewrite foldl_collect.
Qed.
End ListingFacts.

Section ListingClaim.
Context {R : MapRange}.

(** C1 (amended): every list returned by [GetProjects] and by [GetTasks]
    has pairwise distinct ids, and its elements are exactly the entries of
    the response that are the LAST ones carrying their id: for each id the
    name kept is the last-seen name, because each entry overwrites the map
    slot of its id. *)
Theorem listing_keeps_last_seen_name :
  (forall resp projects,
     GetProjects resp = Returned projects ->
     exists status body entries,
       resp = Reply status body entries /\
       NoDup (Project_ID <$> projects) /\
       forall p, p ∈ projects <->
                 last_with_key ProjectEntry_key {| entry_Project := p |} entries)
  /\
  (forall projectID resp tasks,
     GetTasks projectID resp = Returned tasks ->
     exists status body entries,
       resp = Reply status body entries /\
       NoDup (Task_ID <$> tasks) /\
       forall t, t ∈ tasks <->
                 last_with_key TaskEntry_key {| entry_Task := t |} entries).
Proof.
  split.
  - intros resp ps (status & body & entries & -> & _ & ->)%GetProjects_Returned.
    exists status, body, entries. split; [done|].
    pose proof (assign_each_key ProjectEntry_key
                  (fun e => {| Project_ID := Project_ID (entry_Project e);
                               Project_Name := Project_Name (entry_Project e) |})
                  Project_ID entries (fun e => eq_refl)) as Hkey.
    split; [by apply range_values_NoDup|].
    intros p. rewrite (range_values_elem Project_ID) by exact Hkey.
    unfold projectMap. rewrite assign_each_lookup. unfold last_with_key. split.
    + intros (pre & [[i n]] & post & -> & Hk & <- & Hlater).
      exists pre, post. split; [done|]. intros e' He'. by apply Hlater.
    + intros (pre & post & -> & Hlater).
      exists pre, {| entry_Project := p |}, post. split_and!; auto.
      by destruct p.
  - intros projectID resp ts (status & body & entries & -> & _ & ->)%GetTasks_Returned.
    exists status, body, entries. split; [done|].
    pose proof (assign_each_key TaskEntry_key
                  (fun e => {| Task_ID := Task_ID (entry_Task e);
                               Task_Name := Task_Name (entry_Task e) |})
                  Task_ID entries (fun e => eq_refl)) as Hkey.
    split; [by apply range_values_NoDup|].
    intros t. rewrite (range_values_elem Task_ID) by exact Hkey.
    unfold taskMap. rewrite assign_each_lookup. unfold last_with_key. split.
    + intros (pre & [[i n]] & post & -> & Hk & <- & Hlater).
      exists pre, post. split; [done|]. intros e' He'. by apply Hlater.
    + intros (pre & post & -> & Hlater).
      exists pre, {| entry_Task := t |}, post. split_and!; auto.
      by destruct t.
Qed.
End ListingClaim.

Lemma listing_keeps_last_seen_name_witness :
  exists status body entries,
    Reply 200 EmptyString
      [ {| entry_Project := {| Project_ID := 1; Project_Name := "Alpha" |} |};
        {| entry_Project := {| Project_ID := 2; Project_Name := "Gamma" |} |};
        {| entry_Project := {| Project_ID := 1; Project_Name := "Beta" |} |} ]
    = Reply status body entries /\
    NoDup (Project_ID <$> [ {| Project_ID := 2; Project_Name := "Gamma" |};
                            {| Project_ID := 1; Project_Name := "Beta" |} ]) /\
    forall p, p ∈ [ {| Project_ID := 2; Project_Name := "Gamma" |};
                    {| Project_ID := 1; Project_Name := "Beta" |} ] <->
              last_with_key ProjectEntry_key {| entry_Project := p |} entries.
Proof.
  apply (proj1 (@listing_keeps_last_seen_name range_in_store_order)).
  vm_compute. reflexivity.
Defined.

(** C1 as stated fails: two entries carry id 1, first "Alpha" and then
    "Beta"; the list returned holds "Beta", not the first-seen "Alpha". *)
Lemma listing_first_seen_name_overwritten :
  let alpha := {| Project_ID := 1; Project_Name := "Alpha" |} in
  let beta := {| Project_ID := 1; Project_Name := "Beta" |} in
  let entries := [ {| entry_Project := alpha |}; {| entry_Project := beta |} ] in
  @GetProjects range_in_store_order (Reply 200 EmptyString entries) = Returned [beta]
  /\ first_with_key ProjectEntry_key {| entry_Project := alpha |} entries
  /\ ~ first_with_key ProjectEntry_key {| entry_Project := beta |} entries.
Proof.
  simpl. split; [vm_compute; reflexivity|]. split.
  - exists [], [ {| entry_Project := {| Project_ID := 1; Project_Name := "Beta" |} |} ].
    split; [done|]. intros e' He'. by apply elem_of_nil in He'.
  - intros (pre & post & Heq & Hpre).
    destruct pre as [|a pre]; [discriminate Heq|].
    injection Heq as <- Heq.
    apply (Hpre {| entry_Project := {| Project_ID := 1; Project_Name := "Alpha" |} |}).
    + by left.
    + reflexivity.
Qed.

(** ** The session on the plain toolkit *)

Example demo_tasks_on_screen :
  let w := demo_run demo_boot demo_to_tasks in
  state (model w) = "select_task" /\
  tasks (model w) = [ {| Task_ID := 10; Task_Name := "Build" |} ] /\
  history w =
    [ Issued (fetchProjects (NewHarvestClient demo_config));
      Completed (fetchProjects (NewHarvestClient demo_config))
                (ProjectsAnswer demo_projects)
                (fetchProjectsMsg [ {| Project_ID := 1; Project_Name := "Alpha" |} ]);
      Input (Key ("enter" : @KeyMsg plain_toolkit));
      Issued (fetchTasks (NewHarvestClient demo_config) 1);
      Completed (fetchTasks (NewHarvestClient demo_config) 1)
                (TasksAnswer demo_tasks)
                (fetchTasksMsg [ {| Task_ID := 10; Task_Name := "Build" |} ]) ].
Proof. vm_compute. auto. Qed.

Example demo_timer_running :
  let w := demo_run demo_boot demo_to_timer in
  state (model w) = "enter_details" /\
  activeTimer (model w) = Some demo_timer /\
  textinput_Value (Bubbles := plain_bubbles) (ticketInput (model w)) = "x" /\
  inflight w = [] /\
  success (model w) = "Timer started for: x".
Proof. vm_compute. auto. Qed.

(** ** The transition function *)

Section FailureTexts.
Context {TK : Toolkit} {R : MapRange}.

End FailureTexts.

(** Reduce field reads of field assignments. *)
Ltac fields :=
  cbn [harvestClient state projects tasks selectedProject selectedTask
       ticketInput projectList taskList activeTimer error success quitting showHelp
       set_state set_projects set_tasks set_selectedProject set_selectedTask
       set_ticketInput set_projectList set_taskList set_activeTimer set_error
       set_success set_quitting set_showHelp fst snd] in *.

(** Decide comparisons between string literals. *)
Ltac literals := cbn [String.eqb Ascii.eqb Bool.eqb orb andb negb] in *.

Section EngineFacts.
Context {TK : Toolkit} {B : Bubbles}.

Lemma same_but_components_refl (m : Model) : same_but_components m m.
Proof. repeat split. Qed.

Lemma same_but_components_trans (m1 m2 m3 : Model) :
  same_but_components m1 m2 -> same_but_components m2 m3 -> same_but_components m1 m3.
Proof.
  unfold same_but_components. intros H12 H23.
  destruct_and!. split_and!; congruence.
Qed.

(** The toolkit components never touch the engine's own fields and never
    ask for a remote operation. *)
Lemma Update_lists_frame (m : Model) (msg : Msg) :
  same_but_components m (Update_lists m msg).1 /\
  is_operation (Update_lists m msg).2 = false.
Proof.
  unfold Update_lists.
  destruct (String.eqb (state m) "select_project").
  - destruct (list_Update (projectList m) msg) as [l [c|]]; simpl; repeat split.
  - destruct (String.eqb (state m) "select_task").
    + destruct (list_Update (taskList m) msg) as [l [c|]]; simpl; repeat split.
    + simpl. repeat split.
Qed.

Lemma Update_components_frame (m : Model) (msg : Msg) :
  same_but_components m (Update_components m msg).1 /\
  is_operation (Update_components m msg).2 = false.
Proof.
  unfold Update_components.
  destruct (String.eqb (state m) "enter_details"); [|apply Update_lists_frame].
  destruct (textinput_Focused (ticketInput m)); [|apply Update_lists_frame].
  destruct (textinput_Update (ticketInput m) msg) as [t [c|]]; simpl; repeat split.
Qed.

(** Reading [Update] at a given key. *)
Lemma Update_enter_key (m : Model) (k : KeyMsg) :
  KeyMsg_String k = "enter" -> Update m (Key k) = Update_enter m (Key k).
Proof. intros Hk. unfold Update. rewrite Hk. reflexivity. Qed.

Lemma Update_esc_key (m : Model) (k : KeyMsg) :
  KeyMsg_String k = "esc" -> Update m (Key k) = Update_esc m (Key k).
Proof. intros Hk. unfold Update. rewrite Hk. reflexivity. Qed.

Lemma Update_help_key (m : Model) (k : KeyMsg) :
  KeyMsg_String k = "?" ->
  Update m (Key k) = (set_showHelp (negb (showHelp m)) m, None).
Proof. intros Hk. unfold Update. rewrite Hk. reflexivity. Qed.

Lemma Update_quit_key (m : Model) (k : KeyMsg) :
  KeyMsg_String k = "q" \/ KeyMsg_String k = "ctrl+c" ->
  Update m (Key k) = (set_quitting true m, Some tea_Quit).
Proof. intros [Hk|Hk]; unfold Update; rewrite Hk; reflexivity. Qed.

(** ["enter"] in the details screen. *)
Lemma Update_enter_details (m : Model) (msg : Msg) :
  state m = "enter_details" ->
  Update_enter m msg =
    let m0 := set_success EmptyString (set_error EmptyString m) in
    if String.eqb (textinput_Value (ticketInput m)) EmptyString
    then (set_error "Please enter ticket number and description" m0, None)
    else match activeTimer m with
         | Some t => (m0, Some (stopTimer (harvestClient m) (Timer_ID t)))
         | None => (m0, Some (startTimer (harvestClient m)
                                (Project_ID (selectedProject m))
                                (Task_ID (selectedTask m))
                                (textinput_Value (ticketInput m))))
         end.
Proof.
  intros Hs. unfold Update_enter. fields. rewrite Hs. reflexivity.
Qed.
(** ["enter"] in a list screen whose highlighted index selects nothing. *)
Lemma Update_enter_no_project (m : Model) (msg : Msg) :
  state m = "select_project" ->
  projects m = [] \/ ~ (0 <= list_Index (projectList m) < len (projects m)) ->
  Update_enter m msg =
    Update_components (set_success EmptyString (set_error EmptyString m)) msg.
Proof.
  intros Hs Hno. unfold Update_enter. fields. rewrite Hs. literals.
  destruct (0 <? len (projects m)) eqn:Hlen; [|reflexivity].
  destruct ((0 <=? list_Index (projectList m))
            && (list_Index (projectList m) <? len (projects m))) eqn:Hidx; [|reflexivity].
  exfalso. apply andb_true_iff in Hidx as [H1 H2].
  apply Z.leb_le in H1. apply Z.ltb_lt in H2. apply Z.ltb_lt in Hlen.
  destruct Hno as [Hnil|Hout]; [|lia].
  rewrite Hnil in Hlen. unfold len in Hlen. simpl in Hlen. lia.
Qed.

Lemma Update_enter_no_task (m : Model) (msg : Msg) :
  state m = "select_task" ->
  tasks m = [] \/ ~ (0 <= list_Index (taskList m) < len (tasks m)) ->
  Update_enter m msg =
    Update_components (set_success EmptyString (set_error EmptyString m)) msg.
Proof.
  intros Hs Hno. unfold Update_enter. fields. rewrite Hs. literals.
  destruct (0 <? len (tasks m)) eqn:Hlen; [|reflexivity].
  destruct ((0 <=? list_Index (taskList m))
            && (list_Index (taskList m) <? len (tasks m))) eqn:Hidx; [|reflexivity].
  exfalso. apply andb_true_iff in Hidx as [H1 H2].
  apply Z.leb_le in H1. apply Z.ltb_lt in H2. apply Z.ltb_lt in Hlen.
  destruct Hno as [Hnil|Hout]; [|lia].
  rewrite Hnil in Hlen. unfold len in Hlen. simpl in Hlen. lia.
Qed.

(** ["enter"] on a highlighted project. *)
Lemma Update_enter_project (m : Model) (msg : Msg) :
  state m = "select_project" ->
  0 <= list_Index (projectList m) < len (projects m) ->
  exists p,
    projects m !! Z.to_nat (list_Index (projectList m)) = Some p /\
    Update_enter m msg =
      (set_state "loading_tasks"
         (set_selectedProject p (set_success EmptyString (set_error EmptyString m))),
       Some (fetchTasks (harvestClient m) (Project_ID p))).
Proof.
  intros Hs Hidx. unfold len in Hidx.
  destruct (projects m !! Z.to_nat (list_Index (projectList m))) as [p|] eqn:Hp.
  2:{ apply lookup_ge_None in Hp. lia. }
  exists p. split; [done|].
  unfold Update_enter. fields. rewrite Hs. literals.
  unfold len.
  replace (0 <? Z.of_nat (length (projects m))) with true
    by (symmetry; apply Z.ltb_lt; lia).
  replace (0 <=? list_Index (projectList m)) with true
    by (symmetry; apply Z.leb_le; lia).
  replace (list_Index (projectList m) <? Z.of_nat (length (projects m))) with true
    by (symmetry; apply Z.ltb_lt; lia).
  cbn [andb]. rewrite Hp. reflexivity.
Qed.

(** *** Text that appears on the screen *)

Lemma string_app_assoc (a b c : string) : (a +:+ b) +:+ c = a +:+ (b +:+ c).
Proof.
  induction a as [|x a IH]; [reflexivity|].
  change (String x ((a +:+ b) +:+ c) = String x (a +:+ (b +:+ c))).
  f_equal. exact IH.
Qed.

Lemma string_app_nil_r (a : string) : a +:+ EmptyString = a.
Proof.
  induction a as [|x a IH]; [reflexivity|].
  change (String x (a +:+ EmptyString) = String x a).
  f_equal. exact IH.
Qed.

Lemma shows_refl (t : string) : shows t t.
Proof.
  exists EmptyString, EmptyString.
  change (t = t +:+ EmptyString). by rewrite string_app_nil_r.
Qed.

Lemma shows_app_l (t d x : string) : shows t d -> shows t (x +:+ d).
Proof.
  intros (pre & post & ->). exists (x +:+ pre), post. by rewrite string_app_assoc.
Qed.

Lemma shows_app_r (t d x : string) : shows t d -> shows t (d +:+ x).
Proof.
  intros (pre & post & ->). exists pre, (post +:+ x).
  by rewrite !string_app_assoc.
Qed.


(** Lines 530-533: a non-empty [error] is rendered below the screen of
    every state but ["error"]. *)
Lemma View_messages_shows_error (m : Model) (s : string) :
  error m <> EmptyString -> state m <> "error" ->
  shows (errorStyle_Render ("Error: " +:+ error m)) (View_messages m s).
Proof.
  intros He Hs. unfold View_messages.
  apply String.eqb_neq in He. apply String.eqb_neq in Hs. rewrite He, Hs. cbn [negb andb].
  destruct (negb (String.eqb (success m) EmptyString)).
  - apply shows_app_r. do 3 apply shows_app_l. apply shows_refl.
  - do 3 apply shows_app_l. apply shows_refl.
Qed.

Lemma View_document_shows_error (m : Model) :
  error m <> EmptyString -> state m <> "error" ->
  shows (errorStyle_Render ("Error: " +:+ error m)) (View_document m).
Proof.
  intros He Hs. unfold View_document. cbv zeta.
  apply shows_app_l, shows_app_r.
  by apply View_messages_shows_error.
Qed.


Lemma View_overlay_hidden (m : Model) :
  quitting m = false -> showHelp m = false ->
  View m = docStyle_Render (View_document m).
Proof. intros Hq Hh. unfold View. by rewrite Hq, Hh. Qed.
(** *** Confirming in the details screen *)

(** C2 (amended): in ["enter_details"] with [activeTimer] set, a confirm
    event keeps the state and the timer; it issues [stopTimer] for the
    timer's id when the notes field is non-empty, and when the notes field
    is empty it issues nothing and sets the validation message instead. *)
Theorem confirm_with_active_timer (m : Model) (k : KeyMsg) (t : Timer) :
  state m = "enter_details" ->
  activeTimer m = Some t ->
  KeyMsg_String k = "enter" ->
  state (Update m (Key k)).1 = "enter_details" /\
  activeTimer (Update m (Key k)).1 = Some t /\
  (textinput_Value (ticketInput m) <> EmptyString ->
     (Update m (Key k)).2 = Some (stopTimer (harvestClient m) (Timer_ID t))) /\
  (textinput_Value (ticketInput m) = EmptyString ->
     (Update m (Key k)).2 = None /\
     error (Update m (Key k)).1 = "Please enter ticket number and description").
Proof.
  intros Hs Ht Hk. rewrite (Update_enter_key m k Hk), (Update_enter_details m _ Hs).
  cbv zeta. rewrite Ht.
  destruct (String.eqb_spec (textinput_Value (ticketInput m)) EmptyString) as [Hv|Hv];
    fields; split_and!; done.
Qed.

(** C5: in ["enter_details"] with no active timer, a confirm event with an
    empty notes field issues no command (so no [startTimer]), leaves
    [activeTimer] unset, keeps the state, and sets the validation message,
    which the page shows below the form; the page is what [View] returns
    while the help overlay is hidden. *)
Theorem confirm_with_empty_notes (m : Model) (k : KeyMsg) :
  state m = "enter_details" ->
  activeTimer m = None ->
  KeyMsg_String k = "enter" ->
  textinput_Value (ticketInput m) = EmptyString ->
  (Update m (Key k)).2 = None /\
  activeTimer (Update m (Key k)).1 = None /\
  state (Update m (Key k)).1 = "enter_details" /\
  error (Update m (Key k)).1 = "Please enter ticket number and description" /\
  shows (errorStyle_Render ("Error: " +:+ "Please enter ticket number and description"))
        (View_document (Update m (Key k)).1) /\
  (quitting m = false -> showHelp m = false ->
   View (Update m (Key k)).1 = docStyle_Render (View_document (Update m (Key k)).1)).
Proof.
  intros Hs Ht Hk Hv. rewrite (Update_enter_key m k Hk), (Update_enter_details m _ Hs).
  cbv zeta. rewrite Hv. literals. fields. split_and!; try done.
  - match goal with |- shows _ (View_document ?m') =>
      pose proof (View_document_shows_error m') as Hshow end.
    fields. apply Hshow; [done|]. rewrite Hs. done.
  - intros Hq Hh. apply View_overlay_hidden; fields; done.
Qed.

(** *** Completion of the timer operations *)

(** C4: when [startTimer] completes successfully, [activeTimer] is the
    entry the client returned; when [stopTimer] completes successfully,
    [activeTimer] is [nil]. *)
Theorem timer_completion_sets_activeTimer (m : Model) :
  (forall projectID taskID notes resp t,
     StartTimer projectID taskID notes resp = Returned t ->
     activeTimer (Update m (startTimer_run projectID taskID notes resp)).1 = Some t)
  /\
  (forall timerID resp,
     StopTimer timerID resp = None ->
     activeTimer (Update m (stopTimer_run timerID resp)).1 = None).
Proof.
  split.
  - intros projectID taskID notes resp t Hok. unfold startTimer_run. rewrite Hok.
    unfold Update.
    match goal with |- activeTimer (Update_components ?m1 ?msg).1 = _ =>
      destruct (Update_components_frame m1 msg) as [Hf _] end.
    unfold same_but_components in Hf. destruct_and!.
    match goal with H : activeTimer _ = activeTimer _ |- _ => rewrite H end.
    reflexivity.
  - intros timerID resp Hok. unfold stopTimer_run. rewrite Hok.
    unfold Update.
    match goal with |- activeTimer (Update_components ?m1 ?msg).1 = _ =>
      destruct (Update_components_frame m1 msg) as [Hf _] end.
    unfold same_but_components in Hf. destruct_and!.
    match goal with H : activeTimer _ = activeTimer _ |- _ => rewrite H end.
    reflexivity.
Qed.

(** *** Selecting nothing *)

(** C8: in ["select_project"] or ["select_task"], a select event while the
    candidate list is empty or the highlighted index is out of range leaves
    the state, [activeTimer], both selections and both candidate lists as
    they were, and issues none of the remote operations. *)
Theorem select_nothing_is_noop (m : Model) (k : KeyMsg) :
  KeyMsg_String k = "enter" ->
  (state m = "select_project" /\
   (projects m = [] \/ ~ (0 <= list_Index (projectList m) < len (projects m))))
  \/
  (state m = "select_task" /\
   (tasks m = [] \/ ~ (0 <= list_Index (taskList m) < len (tasks m)))) ->
  state (Update m (Key k)).1 = state m /\
  activeTimer (Update m (Key k)).1 = activeTimer m /\
  selectedProject (Update m (Key k)).1 = selectedProject m /\
  selectedTask (Update m (Key k)).1 = selectedTask m /\
  projects (Update m (Key k)).1 = projects m /\
  tasks (Update m (Key k)).1 = tasks m /\
  is_operation (Update m (Key k)).2 = false.
Proof.
  intros Hk Hcase. rewrite (Update_enter_key m k Hk).
  assert (Update_enter m (Key k) =
          Update_components (set_success EmptyString (set_error EmptyString m)) (Key k))
    as ->.
  { destruct Hcase as [[Hs Hno]|[Hs Hno]].
    - by apply Update_enter_no_project.
    - by apply Update_enter_no_task. }
  match goal with |- context [Update_components ?m1 ?msg] =>
    destruct (Update_components_frame m1 msg) as [Hf Hop] end.
  unfold same_but_components in Hf. fields. destruct_and!. split_and!; done.
Qed.

(** *** The help overlay *)

(** C9: the help key only flips [showHelp] and issues nothing; pressing it
    twice gives back the very model one started from, in every state. *)
Theorem help_toggle_twice (m : Model) (k1 k2 : KeyMsg) :
  KeyMsg_String k1 = "?" ->
  KeyMsg_String k2 = "?" ->
  Update m (Key k1) = (set_showHelp (negb (showHelp m)) m, None) /\
  Update (Update m (Key k1)).1 (Key k2) = (m, None).
Proof.
  intros Hk1 Hk2. rewrite (Update_help_key m k1 Hk1). split; [reflexivity|].
  fields. rewrite (Update_help_key _ k2 Hk2). fields.
  rewrite negb_involutive. destruct m; reflexivity.
Qed.
(** *** Going back to the project list *)

(** C3 (amended): a back event in ["select_task"] (help overlay hidden)
    only sets the state to ["select_project"]: the stored task list and
    every other field stay as they were.  The list kept is not reused: a
    select on a highlighted project issues [fetchTasks] for that project,
    and the task list delivered by a tasks-arrive event replaces the stored
    one. *)
Theorem back_to_projects_keeps_task_list (m : Model) (k : KeyMsg) :
  state m = "select_task" ->
  showHelp m = false ->
  KeyMsg_String k = "esc" ->
  Update m (Key k) = (set_state "select_project" m, None) /\
  tasks (Update m (Key k)).1 = tasks m /\
  (forall k',
     KeyMsg_String k' = "enter" ->
     0 <= list_Index (projectList m) < len (projects m) ->
     exists p,
       projects m !! Z.to_nat (list_Index (projectList m)) = Some p /\
       state (Update (Update m (Key k)).1 (Key k')).1 = "loading_tasks" /\
       (Update (Update m (Key k)).1 (Key k')).2
         = Some (fetchTasks (harvestClient m) (Project_ID p))) /\
  (forall m1 ts,
     tasks (Update m1 (fetchTasksMsg ts)).1 = ts /\
     state (Update m1 (fetchTasksMsg ts)).1 = "select_task").
Proof.
  intros Hs Hh Hk.
  assert (Update m (Key k) = (set_state "select_project" m, None)) as Hback.
  { rewrite (Update_esc_key m k Hk). unfold Update_esc. rewrite Hh, Hs. reflexivity. }
  rewrite Hback. fields. split_and!; try done.
  - intros k' Hk' Hidx. rewrite (Update_enter_key _ k' Hk').
    destruct (Update_enter_project (set_state "select_project" m) (Key k'))
      as (p & Hp & ->); fields; try done.
    exists p. fields. done.
  - intros m1 ts. unfold Update.
    match goal with |- context [Update_components ?m2 ?msg] =>
      destruct (Update_components_frame m2 msg) as [Hf _] end.
    unfold same_but_components in Hf. fields. destruct_and!. split; congruence.
Qed.

(** *** Failures *)


(** *** The quit key and the notes field *)

Lemma Update_components_without_q (m : Model) (msg : Msg) :
  (forall k, msg = Key k -> KeyMsg_String k <> "q") ->
  @Update_components TK without_q m msg = @Update_components TK B m msg.
Proof.
  intros Hq. unfold Update_components, Update_lists.
  cbn [without_q textinput_Focused textinput_Update list_Update].
  destruct msg as [k| | | | | | |]; try reflexivity.
  specialize (Hq k eq_refl). apply String.eqb_neq in Hq. rewrite Hq. reflexivity.
Qed.

Lemma Update_without_q (m : Model) (msg : Msg) :
  @Update TK without_q m msg = @Update TK B m msg.
Proof.
  destruct msg as [k|ps|ts|t|ok|e|w h|x];
    try (unfold Update; cbn [without_q list_SetItems list_SetSize textinput_Value
                             docStyle_GetFrameSize];
         try destruct docStyle_GetFrameSize;
         apply Update_components_without_q; intros k0 [=]).
  unfold Update.
  destruct (String.eqb_spec (KeyMsg_String k) "q") as [Hq|Hq].
  - rewrite Hq. reflexivity.
  - assert (forall m0, @Update_components TK without_q m0 (Key k)
                       = @Update_components TK B m0 (Key k)) as Hc.
    { intros m0. apply Update_components_without_q. by intros k0 [= <-]. }
    destruct (String.eqb (KeyMsg_String k) "ctrl+c"); cbn [orb]; [reflexivity|].
    destruct (String.eqb (KeyMsg_String k) "?"); [reflexivity|].
    destruct (String.eqb (KeyMsg_String k) "esc").
    { unfold Update_esc. rewrite Hc. reflexivity. }
    destruct (String.eqb (KeyMsg_String k) "enter"); [|apply Hc].
    unfold Update_enter.
    cbn [without_q list_Index textinput_Value textinput_Focus].
    rewrite !Hc. reflexivity.
Qed.
End EngineFacts.

(** ** The event loop *)

Section LoopFacts.
Context {TK : Toolkit} {B : Bubbles} {R : MapRange}.

(** The stored project list changes only when a project list arrives. *)
Lemma Update_projects (m : Model) (msg : Msg) :
  projects (Update m msg).1 =
    match msg with fetchProjectsMsg ps => ps | _ => projects m end.
Proof.
  destruct msg as [k|ps|ts|t|ok|e|w h|x]; unfold Update; cbv zeta;
    try destruct docStyle_GetFrameSize;
    try (match goal with |- context [Update_components ?m1 ?msg] =>
           destruct (Update_components_frame m1 msg) as [Hf _] end;
         unfold same_but_components in Hf; destruct_and!;
         match goal with H : projects _ = projects _ |- _ => rewrite H end;
         try destruct ok; try destruct (_ || _); reflexivity).
  destruct (_ || _); [reflexivity|].
  destruct (String.eqb (KeyMsg_String k) "?"); [reflexivity|].
  assert (forall m0, projects (Update_components m0 (Key k)).1 = projects m0) as Hc.
  { intros m0. destruct (Update_components_frame m0 (Key k)) as [Hf _].
    unfold same_but_components in Hf. by destruct_and!. }
  destruct (String.eqb (KeyMsg_String k) "esc").
  { unfold Update_esc. repeat (case_match; fields; try done). }
  destruct (String.eqb (KeyMsg_String k) "enter"); [|apply Hc].
  unfold Update_enter. fields.
  repeat (case_match; fields; rewrite ?Hc; fields; try done).
Qed.

(** [fetchTasks] is issued only while some project is stored. *)
Lemma Update_fetchTasks (m : Model) (msg : Msg) (client : HarvestClient) (projectID : Z) :
  (Update m msg).2 = Some (fetchTasks client projectID) -> projects m <> [].
Proof.
  assert (forall m0 msg0, (Update_components m0 msg0).2 <> Some (fetchTasks client projectID))
    as Hc.
  { intros m0 msg0 Heq. destruct (Update_components_frame m0 msg0) as [_ Hop].
    rewrite Heq in Hop. discriminate Hop. }
  destruct msg as [k|ps|ts|t|ok|e|w h|x]; unfold Update; cbv zeta;
    try destruct docStyle_GetFrameSize;
    try (intros Heq; by apply Hc in Heq).
  destruct (_ || _); [discriminate|].
  destruct (String.eqb (KeyMsg_String k) "?"); [discriminate|].
  destruct (String.eqb (KeyMsg_String k) "esc").
  { unfold Update_esc. repeat (case_match; try discriminate).
    intros Heq; by apply Hc in Heq. }
  destruct (String.eqb (KeyMsg_String k) "enter"); [|intros Heq; by apply Hc in Heq].
  unfold Update_enter. fields.
  destruct (String.eqb (state m) "select_project").
  - destruct (0 <? len (projects m)) eqn:Hlen.
    + intros _ Hnil. rewrite Hnil in Hlen. discriminate Hlen.
    + intros Heq; by apply Hc in Heq.
  - repeat (case_match; try discriminate); intros Heq; by apply Hc in Heq.
Qed.

(** Only the completion of [fetchProjects] delivers a project list. *)
Lemma perform_fetchProjectsMsg (c : Cmd) (a : Answer) (ps : list Project) :
  perform c a = Some (fetchProjectsMsg ps) ->
  exists client resp,
    c = fetchProjects client /\ a = ProjectsAnswer resp /\ GetProjects resp = Returned ps.
Proof.
  destruct c as [|client|client pid|client pid tid notes|client tid|fc];
    destruct a as [resp|resp|resp|resp|x|]; simpl; try discriminate.
  - unfold fetchProjects_run. destruct (GetProjects resp) as [err|ps'] eqn:Hg;
      intros [= <-]. by exists client, resp.
  - unfold fetchTasks_run. destruct (GetTasks pid resp); discriminate.
  - unfold startTimer_run. destruct (StartTimer pid tid notes resp); discriminate.
  - unfold stopTimer_run. destruct (StopTimer tid resp); discriminate.
Qed.
(** *** Ordering of the two listing operations *)

Lemma projects_arrived_app (h1 h2 : list Entry) :
  projects_arrived h1 -> projects_arrived (h1 ++ h2).
Proof.
  intros (client & resp & ps & Hin & Hg & Hne).
  exists client, resp, ps. split_and!; auto. apply elem_of_app. by left.
Qed.

(** Appending one delivery and what [Update] issued in response. *)
Lemma tasks_after_projects_snoc (h : list Entry) (e : Entry) (cmd : option Cmd) :
  tasks_after_projects h ->
  (forall client projectID, e <> Issued (fetchTasks client projectID)) ->
  (forall client projectID,
     cmd = Some (fetchTasks client projectID) -> projects_arrived h) ->
  tasks_after_projects (h ++ e :: (Issued <$> option_list cmd)).
Proof.
  intros Hh He Hcmd pre post client projectID Heq.
  apply app_eq_app in Heq as [l [[Hpre Hl]|[-> Hl]]].
  - destruct l as [|x l].
    + simpl in Hl. injection Hl as Hx _. exfalso. by eapply He.
    + injection Hl as <- _. by eapply Hh.
  - destruct l as [|x l].
    + simpl in Hl. injection Hl as Hx _. exfalso. by eapply He.
    + injection Hl as _ Hl. apply projects_arrived_app.
      destruct cmd as [c|]; simpl in Hl.
      * destruct l as [|y l]; [|by destruct l].
        injection Hl as Hc _. eapply Hcmd. by rewrite Hc.
      * by destruct l.
Qed.

Lemma boot_invariant (c : Configuration) : loop_invariant (boot c).
Proof.
  split; [done|].
  intros pre post client projectID Heq. simpl in Heq.
  destruct pre as [|x pre]; [discriminate Heq|].
  injection Heq as _ Heq. by destruct pre.
Qed.

Lemma dispatch_invariant (w : World) (pending : list Cmd) (e : Entry) (msg : Msg) :
  loop_invariant w ->
  (forall client projectID, e <> Issued (fetchTasks client projectID)) ->
  (forall ps, msg = fetchProjectsMsg ps ->
     exists client resp,
       e = Completed (fetchProjects client) (ProjectsAnswer resp) msg /\
       GetProjects resp = Returned ps) ->
  loop_invariant (dispatch w pending e msg).
Proof.
  intros [Hstored Hord] He Hmsg. unfold dispatch.
  pose proof (Update_projects (model w) msg) as Hp.
  pose proof (Update_fetchTasks (model w) msg) as Hf.
  destruct (Update (model w) msg) as [m' cmd]. simpl in Hp, Hf. split; simpl.
  - intros Hne. destruct msg as [k|ps|ts|t|ok|err|wd ht|x];
      try (apply projects_arrived_app, Hstored; congruence).
    destruct (Hmsg ps eq_refl) as (client & resp & -> & Hg).
    exists client, resp, ps. split_and!; [|done|congruence].
    apply elem_of_app. right. by left.
  - apply tasks_after_projects_snoc; [done|done|].
    intros client projectID ->. apply Hstored. by eapply Hf.
Qed.

Lemma step_invariant (w : World) (ev : Event) :
  loop_invariant w -> loop_invariant (step w ev).
Proof.
  intros Hw. unfold step. destruct (halted w); [done|].
  destruct ev as [k|wd ht|x|n a].
  - apply dispatch_invariant; [done|done|discriminate].
  - apply dispatch_invariant; [done|done|discriminate].
  - apply dispatch_invariant; [done|done|discriminate].
  - destruct (inflight w !! n) as [c|]; [|done].
    assert (forall msg, perform c a = Some msg ->
              loop_invariant (dispatch w (delete n (inflight w)) (Completed c a msg) msg))
      as Hdone.
    { intros msg Hperf. apply dispatch_invariant; [done|done|].
      intros ps ->. apply perform_fetchProjectsMsg in Hperf as (client & resp & -> & -> & Hg).
      by exists client, resp. }
    destruct (quits c a); [exact Hw|].
    destruct (perform c a) as [msg|] eqn:Hperf; [by apply Hdone|done].
Qed.

Lemma run_invariant (w : World) (evs : list Event) :
  loop_invariant w -> loop_invariant (run w evs).
Proof.
  revert w. induction evs as [|ev evs IH]; intros w Hw; [done|].
  simpl. apply IH. by apply step_invariant.
Qed.

(** C6: in every run from start-up, whatever the events, a [fetchTasks]
    (listRecentTasks) is issued only after the completion of
    [fetchProjects] (listRecentProjects) has been delivered with a
    response for which [GetProjects] returned a non-empty list. *)
Theorem tasks_requested_only_after_projects (c : Configuration) (evs : list Event)
    (pre post : list Entry) (client : HarvestClient) (projectID : Z) :
  history (run (boot c) evs) = pre ++ Issued (fetchTasks client projectID) :: post ->
  exists client' resp ps,
    Completed (fetchProjects client') (ProjectsAnswer resp) (fetchProjectsMsg ps) ∈ pre /\
    GetProjects resp = Returned ps /\
    ps <> [].
Proof.
  intros Hhist.
  destruct (run_invariant (boot c) evs (boot_invariant c)) as [_ Hord].
  exact (Hord pre post client projectID Hhist).
Qed.

(** *** The quit key *)

Lemma step_without_q (w : World) (ev : Event) :
  step (B := without_q) w ev = step w ev.
Proof.
  unfold step, dispatch.
  destruct (halted w); [reflexivity|].
  destruct ev as [k|wd ht|x|n a]; rewrite ?Update_without_q; try reflexivity.
  destruct (inflight w !! n) as [c|]; [|reflexivity].
  destruct (quits c a); [reflexivity|].
  destruct (perform c a); rewrite ?Update_without_q; reflexivity.
Qed.

Lemma run_without_q (w : World) (evs : list Event) :
  run (B := without_q) w evs = run w evs.
Proof.
  revert w. induction evs as [|ev evs IH]; intros w; [reflexivity|].
  simpl. rewrite step_without_q. apply IH.
Qed.

(** C10 (amended): a key message whose [String()] is exactly ["q"] is
    taken by the quit case before anything else: [Update] sets [quitting],
    returns [tea.Quit] and leaves the notes field as it was, in
    ["enter_details"] with the field focused as in any other state.  The
    text field never receives that message: were it to ignore it altogether
    ([without_q]), every [Update] and every run would be the same.  Every
    key message whose [String()] is none of ["ctrl+c"], ["q"], ["?"],
    ["esc"] and ["enter"] is handed to the focused text field as it is, so
    a q that arrives together with other runes or with a modifier does
    reach the notes. *)
Theorem q_quits_before_the_notes_field (m : Model) (k : KeyMsg) :
  KeyMsg_String k = "q" ->
  Update m (Key k) = (set_quitting true m, Some tea_Quit) /\
  ticketInput (Update m (Key k)).1 = ticketInput m /\
  (forall m1 msg, Update (B := without_q) m1 msg = Update m1 msg) /\
  (forall w evs, run (B := without_q) w evs = run w evs) /\
  (forall m1 k',
     KeyMsg_String k' <> "ctrl+c" -> KeyMsg_String k' <> "q" ->
     KeyMsg_String k' <> "?" -> KeyMsg_String k' <> "esc" ->
     KeyMsg_String k' <> "enter" ->
     state m1 = "enter_details" ->
     textinput_Focused (ticketInput m1) = true ->
     Update m1 (Key k') =
       (set_ticketInput (textinput_Update (ticketInput m1) (Key k')).1 m1,
        ForeignC <$> (textinput_Update (ticketInput m1) (Key k')).2)).
Proof.
  intros Hk. rewrite (Update_quit_key m k (or_introl Hk)).
  split_and!; [reflexivity|reflexivity|apply Update_without_q|apply run_without_q|].
  intros m1 k' H1 H2 H3 H4 H5 Hs Hf. unfold Update.
  apply String.eqb_neq in H1, H2, H3, H4, H5. rewrite H1, H2, H3, H4, H5. cbn [orb].
  unfold Update_components. rewrite Hs, Hf. literals.
  destruct (textinput_Update (ticketInput m1) (Key k')) as [t cmd]. reflexivity.
Qed.
End LoopFacts.

(** ** The claims on the plain toolkit *)

Lemma confirm_with_active_timer_witness :
  state (demo_Update demo_timer_model (demo_key "enter")).1 = "enter_details" /\
  activeTimer (demo_Update demo_timer_model (demo_key "enter")).1 = Some demo_timer /\
  (textinput_Value (Bubbles := plain_bubbles) (ticketInput demo_timer_model) <> EmptyString ->
     (demo_Update demo_timer_model (demo_key "enter")).2
       = Some (stopTimer (harvestClient demo_timer_model) (Timer_ID demo_timer))) /\
  (textinput_Value (Bubbles := plain_bubbles) (ticketInput demo_timer_model) = EmptyString ->
     (demo_Update demo_timer_model (demo_key "enter")).2 = None /\
     error (demo_Update demo_timer_model (demo_key "enter")).1
       = "Please enter ticket number and description").
Proof.
  apply (@confirm_with_active_timer plain_toolkit plain_bubbles
           demo_timer_model ("enter" : @KeyMsg plain_toolkit) demo_timer);
    vm_compute; reflexivity.
Defined.

(** C2 as stated fails: the timer is running, the user has deleted the
    note, and confirm issues no [stopTimer]; it sets the validation message
    and the timer stays. *)
Lemma confirm_with_timer_and_empty_notes_stops_nothing :
  state demo_erased_model = "enter_details" /\
  activeTimer demo_erased_model = Some demo_timer /\
  textinput_Value (Bubbles := plain_bubbles) (ticketInput demo_erased_model) = EmptyString /\
  (demo_Update demo_erased_model (demo_key "enter")).2 = None /\
  (demo_Update demo_erased_model (demo_key "enter")).2
    <> Some (stopTimer (harvestClient demo_erased_model) (Timer_ID demo_timer)) /\
  error (demo_Update demo_erased_model (demo_key "enter")).1
    = "Please enter ticket number and description".
Proof. vm_compute. split_and!; auto. discriminate. Qed.

Lemma back_to_projects_keeps_task_list_witness :
  demo_Update demo_tasks_model (demo_key "esc")
    = (set_state "select_project" demo_tasks_model, None) /\
  tasks (demo_Update demo_tasks_model (demo_key "esc")).1 = tasks demo_tasks_model.
Proof.
  pose proof (@back_to_projects_keeps_task_list plain_toolkit plain_bubbles
                demo_tasks_model ("esc" : @KeyMsg plain_toolkit)) as H.
  destruct H as (H1 & H2 & _); [vm_compute; reflexivity ..|].
  split; [exact H1|exact H2].
Defined.

(** C3 as stated fails: after the back event the model is in
    ["select_project"] and still stores the task list of the project left
    behind. *)
Lemma back_to_projects_task_list_kept :
  state demo_tasks_model = "select_task" /\
  showHelp demo_tasks_model = false /\
  state (demo_Update demo_tasks_model (demo_key "esc")).1 = "select_project" /\
  tasks (demo_Update demo_tasks_model (demo_key "esc")).1
    = [ {| Task_ID := 10; Task_Name := "Build" |} ] /\
  tasks (demo_Update demo_tasks_model (demo_key "esc")).1 <> [].
Proof. vm_compute. split_and!; auto. discriminate. Qed.

Lemma timer_completion_sets_activeTimer_witness :
  activeTimer (demo_Update demo_details_model
                 (startTimer_run 1 10 "x" (Reply 201 EmptyString demo_timer))).1
    = Some demo_timer /\
  activeTimer (demo_Update demo_timer_model
                 (stopTimer_run 7 (Reply 200 EmptyString tt))).1 = None.
Proof.
  split.
  - apply (proj1 (@timer_completion_sets_activeTimer plain_toolkit plain_bubbles
                    demo_details_model)).
    vm_compute. reflexivity.
  - apply (proj2 (@timer_completion_sets_activeTimer plain_toolkit plain_bubbles
                    demo_timer_model)).
    vm_compute. reflexivity.
Defined.

Lemma confirm_with_empty_notes_witness :
  (demo_Update demo_details_model (demo_key "enter")).2 = None /\
  activeTimer (demo_Update demo_details_model (demo_key "enter")).1 = None /\
  state (demo_Update demo_details_model (demo_key "enter")).1 = "enter_details" /\
  error (demo_Update demo_details_model (demo_key "enter")).1
    = "Please enter ticket number and description" /\
  shows ("Error: " +:+ "Please enter ticket number and description")
        (View_document (B := plain_bubbles)
           (demo_Update demo_details_model (demo_key "enter")).1) /\
  (quitting demo_details_model = false -> showHelp demo_details_model = false ->
   View (B := plain_bubbles) (demo_Update demo_details_model (demo_key "enter")).1
     = View_document (B := plain_bubbles)
         (demo_Update demo_details_model (demo_key "enter")).1).
Proof.
  apply (@confirm_with_empty_notes plain_toolkit plain_bubbles
           demo_details_model ("enter" : @KeyMsg plain_toolkit));
    vm_compute; reflexivity.
Defined.

Lemma tasks_requested_only_after_projects_witness :
  exists client' resp ps,
    Completed (fetchProjects client') (ProjectsAnswer resp) (fetchProjectsMsg ps)
      ∈ [ Issued (fetchProjects (NewHarvestClient demo_config));
          Completed (fetchProjects (NewHarvestClient demo_config))
                    (ProjectsAnswer demo_projects)
                    (fetchProjectsMsg [ {| Project_ID := 1; Project_Name := "Alpha" |} ]);
          Input (demo_key "enter") ] /\
    @GetProjects range_in_store_order resp = Returned ps /\
    ps <> [].
Proof.
  apply (@tasks_requested_only_after_projects plain_toolkit plain_bubbles
           range_in_store_order demo_config demo_to_tasks _
           [ Completed (fetchTasks (NewHarvestClient demo_config) 1)
                       (TasksAnswer demo_tasks)
                       (fetchTasksMsg [ {| Task_ID := 10; Task_Name := "Build" |} ]) ]
           (NewHarvestClient demo_config) 1).
  vm_compute. reflexivity.
Defined.


Lemma select_nothing_is_noop_witness :
  state (demo_Update demo_no_projects_model (demo_key "enter")).1
    = state demo_no_projects_model /\
  activeTimer (demo_Update demo_no_projects_model (demo_key "enter")).1
    = activeTimer demo_no_projects_model /\
  selectedProject (demo_Update demo_no_projects_model (demo_key "enter")).1
    = selectedProject demo_no_projects_model /\
  selectedTask (demo_Update demo_no_projects_model (demo_key "enter")).1
    = selectedTask demo_no_projects_model /\
  projects (demo_Update demo_no_projects_model (demo_key "enter")).1
    = projects demo_no_projects_model /\
  tasks (demo_Update demo_no_projects_model (demo_key "enter")).1
    = tasks demo_no_projects_model /\
  is_operation (demo_Update demo_no_projects_model (demo_key "enter")).2 = false.
Proof.
  apply (@select_nothing_is_noop plain_toolkit plain_bubbles
           demo_no_projects_model ("enter" : @KeyMsg plain_toolkit)).
  - vm_compute. reflexivity.
  - left. split; [vm_compute; reflexivity|]. left. vm_compute. reflexivity.
Defined.

Lemma help_toggle_twice_witness :
  demo_Update demo_timer_model (demo_key "?")
    = (set_showHelp (negb (showHelp demo_timer_model)) demo_timer_model, None) /\
  demo_Update (demo_Update demo_timer_model (demo_key "?")).1 (demo_key "?")
    = (demo_timer_model, None).
Proof.
  apply (@help_toggle_twice plain_toolkit plain_bubbles demo_timer_model
           ("?" : @KeyMsg plain_toolkit) ("?" : @KeyMsg plain_toolkit));
    vm_compute; reflexivity.
Defined.

Lemma q_quits_before_the_notes_field_witness :
  demo_Update demo_details_model (demo_key "q")
    = (set_quitting true demo_details_model, Some tea_Quit) /\
  ticketInput (demo_Update demo_details_model (demo_key "q")).1
    = ticketInput demo_details_model.
Proof.
  pose proof (@q_quits_before_the_notes_field plain_toolkit plain_bubbles
                range_in_store_order demo_details_model ("q" : @KeyMsg plain_toolkit)) as H.
  destruct H as (H1 & H2 & _); [vm_compute; reflexivity|].
  split; [exact H1|exact H2].
Defined.


(** * Further properties of the program *)

(** ** The service client: what the two listings keep *)

Section ListingMore.
Context {R : MapRange}.

Lemma Permutation_of_eq {A : Type} (l k : list A) : l = k -> l ≡ₚ k.
Proof. by intros ->. Qed.

Lemma assign_each_size {E V : Type} (key : E -> Z) (val : E -> V) (es : list E) :
  (size (foldl (fun m e => <[key e := val e]> m) (∅ : gmap Z V) es) <= length es)%nat.
Proof.
  induction es as [|x es IH] using rev_ind; [simpl; by rewrite map_size_empty|].
  rewrite foldl_app, length_app. simpl. rewrite map_size_insert.
  destruct (_ !! key x); simpl; lia.
Qed.

Lemma range_values_length {V : Type} (m : gmap Z V) :
  length (range_map m).*2 = size m.
Proof.
  rewrite length_fmap, (range_map_perm V m). apply length_map_to_list.
Qed.

(** With pairwise distinct keys every entry is the last one of its key. *)
Lemma last_with_key_distinct {E : Type} (key : E -> Z) (e : E) (es : list E) :
  NoDup (key <$> es) -> e ∈ es -> last_with_key key e es.
Proof.
  intros Hnd (pre & post & ->)%list_elem_of_split.
  exists pre, post. split; [done|]. intros e' He' Hk.
  rewrite fmap_app, fmap_cons in Hnd.
  apply NoDup_app in Hnd as (_ & _ & Hnd). apply NoDup_cons in Hnd as [Hnot _].
  apply Hnot. rewrite <- Hk. by apply list_elem_of_fmap_2.
Qed.

Lemma last_with_key_elem {E : Type} (key : E -> Z) (e : E) (es : list E) :
  last_with_key key e es -> e ∈ es.
Proof.
  intros (pre & post & -> & _). apply elem_of_app. right. by left.
Qed.

(** The values of the map built from entries with distinct keys are the
    values of the entries, up to order. *)
Lemma assign_each_distinct {E V : Type} (key : E -> Z) (val : E -> V) (vkey : V -> Z)
    (es : list E) :
  (forall e, vkey (val e) = key e) ->
  NoDup (key <$> es) ->
  (range_map (foldl (fun m e => <[key e := val e]> m) (∅ : gmap Z V) es)).*2
    ≡ₚ val <$> es.
Proof.
  intros Hkey Hnd.
  pose proof (assign_each_key key val vkey es Hkey) as Hat.
  assert (NoDup (val <$> es)) as Hndv.
  { apply (NoDup_fmap_1 vkey). rewrite <- list_fmap_compose.
    erewrite list_fmap_ext; [exact Hnd|]. intros i e _. simpl. apply Hkey. }
  apply NoDup_Permutation; [|done|].
  - apply (NoDup_fmap_1 vkey). by apply range_values_NoDup.
  - intros v. rewrite (range_values_elem vkey) by exact Hat.
    rewrite assign_each_lookup, list_elem_of_fmap. split.
    + intros (pre & e & post & -> & _ & <- & _). exists e. split; [done|].
      apply elem_of_app. right. by left.
    + intros (e & -> & He).
      destruct (last_with_key_distinct key e es Hnd He) as (pre & post & -> & Hlater).
      exists pre, e, post. split_and!; auto. intros e' He'. rewrite Hkey. by apply Hlater.
Qed.

(** X1: a listing never returns more elements than the response has
    entries, and it returns the empty list exactly when the response has no
    entry at all. *)
Theorem listing_size :
  (forall status body entries ps,
     GetProjects (Reply status body entries) = Returned ps ->
     (length ps <= length entries)%nat /\ (ps = [] <-> entries = [])) /\
  (forall projectID status body entries ts,
     GetTasks projectID (Reply status body entries) = Returned ts ->
     (length ts <= length entries)%nat /\ (ts = [] <-> entries = [])).
Proof.
  split.
  - intros status body pes ps
      (s1 & b1 & e1 & [= <- <- <-] & _ & ->)%GetProjects_Returned.
    rewrite range_values_length. unfold projectMap.
    split; [apply assign_each_size|]. split;
      [|intros ->; apply nil_length_inv; rewrite range_values_length;
        apply map_size_empty].
    intros Hnil. destruct pes as [|x pes _] using rev_ind; [done|]. exfalso.
    apply (f_equal length) in Hnil. rewrite range_values_length in Hnil.
    apply map_size_empty_iff in Hnil.
    rewrite foldl_app in Hnil. simpl in Hnil.
    by apply insert_non_empty in Hnil.
  - intros projectID status body tes ts
      (s2 & b2 & e2 & [= <- <- <-] & _ & ->)%GetTasks_Returned.
    rewrite range_values_length. unfold taskMap.
    split; [apply assign_each_size|]. split;
      [|intros ->; apply nil_length_inv; rewrite range_values_length;
        apply map_size_empty].
    intros Hnil. destruct tes as [|x tes _] using rev_ind; [done|]. exfalso.
    apply (f_equal length) in Hnil. rewrite range_values_length in Hnil.
    apply map_size_empty_iff in Hnil.
    rewrite foldl_app in Hnil. simpl in Hnil.
    by apply insert_non_empty in Hnil.
Qed.

(** X3: when no two entries of the response carry the same id, the listing
    drops nothing and invents nothing: it returns the entries' projects
    (tasks), in some order. *)
Theorem listing_distinct_ids_lossless :
  (forall status body entries ps,
     GetProjects (Reply status body entries) = Returned ps ->
     NoDup (ProjectEntry_key <$> entries) ->
     ps ≡ₚ entry_Project <$> entries) /\
  (forall projectID status body entries ts,
     GetTasks projectID (Reply status body entries) = Returned ts ->
     NoDup (TaskEntry_key <$> entries) ->
     ts ≡ₚ entry_Task <$> entries).
Proof.
  split.
  - intros status body entries ps
      (s1 & b1 & e1 & [= <- <- <-] & _ & ->)%GetProjects_Returned Hnd.
    etransitivity.
    { exact (assign_each_distinct ProjectEntry_key
               (fun e => {| Project_ID := Project_ID (entry_Project e);
                            Project_Name := Project_Name (entry_Project e) |})
               Project_ID entries (fun e => eq_refl) Hnd). }
    apply Permutation_of_eq, list_fmap_ext. intros i [[pid name]] _. reflexivity.
  - intros projectID status body entries ts
      (s2 & b2 & e2 & [= <- <- <-] & _ & ->)%GetTasks_Returned Hnd.
    etransitivity.
    { exact (assign_each_distinct TaskEntry_key
               (fun e => {| Task_ID := Task_ID (entry_Task e);
                            Task_Name := Task_Name (entry_Task e) |})
               Task_ID entries (fun e => eq_refl) Hnd). }
    apply Permutation_of_eq, list_fmap_ext. intros i [[tid name]] _. reflexivity.
Qed.

(** X4: collapsing is idempotent.  A list returned by [GetProjects], sent
    back as the entries of a response, is returned again up to order. *)
Theorem listing_idempotent (resp : Response (list ProjectEntry)) (ps : list Project) :
  GetProjects resp = Returned ps ->
  exists ps',
    GetProjects (Reply 200 EmptyString ((fun p => {| entry_Project := p |}) <$> ps))
      = Returned ps' /\
    ps' ≡ₚ ps.
Proof.
  intros (s1 & b1 & e1 & -> & _ & ->)%GetProjects_Returned.
  eexists. split; [simpl; rewrite foldl_collect; reflexivity|].
  assert (NoDup (ProjectEntry_key <$>
                   ((fun p => {| entry_Project := p |}) <$> (range_map (projectMap e1)).*2)))
    as Hnd.
  { rewrite <- list_fmap_compose.
    apply (range_values_NoDup Project_ID).
    exact (assign_each_key ProjectEntry_key
             (fun e => {| Project_ID := Project_ID (entry_Project e);
                          Project_Name := Project_Name (entry_Project e) |})
             Project_ID e1 (fun e => eq_refl)). }
  etransitivity.
  { exact (assign_each_distinct ProjectEntry_key
             (fun e => {| Project_ID := Project_ID (entry_Project e);
                          Project_Name := Project_Name (entry_Project e) |})
             Project_ID _ (fun e => eq_refl) Hnd). }
  rewrite <- list_fmap_compose.
  rewrite <- (list_fmap_id (range_map (projectMap e1)).*2) at 2.
  apply Permutation_of_eq, list_fmap_ext. intros i [pid name] _. reflexivity.
Qed.
End ListingMore.

(** X2: the order in which the runtime ranges over the map is the only
    thing it decides: under any two runtimes the two listings fail with the
    same error or return the same elements, up to order. *)
Theorem listing_runtime_independent (R1 R2 : MapRange)
    (resp : Response (list ProjectEntry)) (projectID : Z)
    (tresp : Response (list TaskEntry)) :
  match @GetProjects R1 resp, @GetProjects R2 resp with
  | Returned ps1, Returned ps2 => ps1 ≡ₚ ps2
  | Failed e1, Failed e2 => e1 = e2
  | _, _ => False
  end /\
  match @GetTasks R1 projectID tresp, @GetTasks R2 projectID tresp with
  | Returned ts1, Returned ts2 => ts1 ≡ₚ ts2
  | Failed e1, Failed e2 => e1 = e2
  | _, _ => False
  end.
Proof.
  split.
  - destruct resp as [err|status body entries]; simpl; [done|].
    destruct (IsError status); [done|].
    rewrite !foldl_collect. simpl.
    by rewrite (@range_map_perm R1), (@range_map_perm R2).
  - destruct tresp as [err|status body entries]; simpl; [done|].
    destruct (IsError status); [done|].
    rewrite !foldl_collect. simpl.
    by rewrite (@range_map_perm R1), (@range_map_perm R2).
Qed.

(** ** The service client: failures *)

Section ClientFailures.
Context {TK : Toolkit} {R : MapRange}.

Lemma IsError_false (status : Z) : IsError status = false <-> status <= 399.
Proof. unfold IsError. rewrite Z.ltb_ge. reflexivity. Qed.

(** X5: the five client calls share one rule.  A call succeeds exactly
    when the request was carried out and the status of the reply is at most
    399; a transport error is handed on with its text unchanged. *)
Theorem client_succeeds_up_to_399 :
  (forall resp,
     (exists ps, GetProjects resp = Returned ps) <->
     (exists status body es, resp = Reply status body es /\ status <= 399)) /\
  (forall projectID resp,
     (exists ts, GetTasks projectID resp = Returned ts) <->
     (exists status body es, resp = Reply status body es /\ status <= 399)) /\
  (forall projectID taskID notes resp,
     (exists t, StartTimer projectID taskID notes resp = Returned t) <->
     (exists status body t, resp = Reply status body t /\ status <= 399)) /\
  (forall timerID resp,
     StopTimer timerID resp = None <->
     (exists status body u, resp = Reply status body u /\ status <= 399)) /\
  (forall resp,
     TestConnection resp = None <->
     (exists status body u, resp = Reply status body u /\ status <= 399)) /\
  (forall err projectID taskID notes timerID,
     GetProjects (TransportError err) = Failed err /\
     GetTasks projectID (TransportError err) = Failed err /\
     StartTimer projectID taskID notes (TransportError err) = Failed err /\
     StopTimer timerID (TransportError err) = Some err /\
     TestConnection (TransportError err) = Some err).
Proof.
  split_and!.
  - intros [err|status body es]; simpl.
    + split; [intros [ps Hp]; discriminate Hp|intros (s & b & e & Heq & _); discriminate Heq].
    + destruct (IsError status) eqn:He.
      * split; [intros [ps Hp]; discriminate Hp|].
        intros (s & b & e & [= <- <- <-] & Hs). apply IsError_false in Hs. congruence.
      * split; [|eauto]. intros _. apply IsError_false in He. eauto.
  - intros projectID [err|status body es]; simpl.
    + split; [intros [ps Hp]; discriminate Hp|intros (s & b & e & Heq & _); discriminate Heq].
    + destruct (IsError status) eqn:He.
      * split; [intros [ps Hp]; discriminate Hp|].
        intros (s & b & e & [= <- <- <-] & Hs). apply IsError_false in Hs. congruence.
      * split; [|eauto]. intros _. apply IsError_false in He. eauto.
  - intros projectID taskID notes [err|status body t]; simpl.
    + split; [intros [ps Hp]; discriminate Hp|intros (s & b & e & Heq & _); discriminate Heq].
    + destruct (IsError status) eqn:He.
      * split; [intros [ps Hp]; discriminate Hp|].
        intros (s & b & e & [= <- <- <-] & Hs). apply IsError_false in Hs. congruence.
      * split; [|eauto]. intros _. apply IsError_false in He. eauto.
  - intros timerID [err|status body u]; simpl.
    + split; [discriminate|intros (s & b & e & Heq & _); discriminate Heq].
    + destruct (IsError status) eqn:He.
      * split; [discriminate|].
        intros (s & b & e & [= <- <- <-] & Hs). apply IsError_false in Hs. congruence.
      * split; [|done]. intros _. apply IsError_false in He. eauto.
  - intros [err|status body u]; simpl.
    + split; [discriminate|intros (s & b & e & Heq & _); discriminate Heq].
    + destruct (IsError status) eqn:He.
      * split; [discriminate|].
        intros (s & b & e & [= <- <- <-] & Hs). apply IsError_false in Hs. congruence.
      * split; [|done]. intros _. apply IsError_false in He. eauto.
  - intros. split_and!; reflexivity.
Qed.

(** X6: the entry [StartTimer] returns is the entry decoded from the
    reply, field for field; the project, task and notes that were asked for
    play no part in it. *)
Theorem StartTimer_returns_the_reply (projectID taskID : Z) (notes : string)
    (resp : Response Timer) (t : Timer) :
  StartTimer projectID taskID notes resp = Returned t ->
  (exists status body, resp = Reply status body t) /\
  (forall projectID' taskID' notes',
     StartTimer projectID' taskID' notes' resp = Returned t).
Proof.
  destruct resp as [err|status body t']; simpl; [discriminate|].
  destruct (IsError status); [discriminate|].
  intros [= <-]. destruct t'. simpl. split; [eauto|reflexivity].
Qed.
End ClientFailures.

(** X7: the client is never left without a base URL.  An empty [BaseURL]
    is replaced by the default, a non-empty one is kept, the credentials
    are never touched, and building a client from a client's configuration
    changes nothing. *)
Theorem NewHarvestClient_base_url (c : Configuration) :
  BaseURL (config (NewHarvestClient c)) <> EmptyString /\
  (BaseURL c = EmptyString -> BaseURL (config (NewHarvestClient c)) = defaultBaseURL) /\
  (BaseURL c <> EmptyString -> config (NewHarvestClient c) = c) /\
  AccountID (config (NewHarvestClient c)) = AccountID c /\
  AccessToken (config (NewHarvestClient c)) = AccessToken c /\
  NewHarvestClient (config (NewHarvestClient c)) = NewHarvestClient c.
Proof.
  unfold NewHarvestClient.
  destruct (String.eqb_spec (BaseURL c) EmptyString) as [He|Hne]; simpl.
  - split_and!; try done.
  - apply String.eqb_neq in Hne as Hb. rewrite Hb. split_and!; try done.
Qed.

Section MainFacts.
Context {TK : Toolkit} {B : Bubbles}.

(** X8: [main] hands a model to Bubble Tea exactly when both environment
    variables are non-empty and the probe was answered with a status of at
    most 399.  The model is then the initial one, in ["loading_projects"]
    with a client on the default base URL, and its first command is
    [fetchProjects].  A missing variable ends the process before the probe
    is looked at. *)
Theorem main_starts_the_program (account token : string) (probe : Response unit) :
  ((exists m, main account token probe = tea_Run m) <->
   account <> EmptyString /\ token <> EmptyString /\
   exists status body u, probe = Reply status body u /\ status <= 399) /\
  (forall m, main account token probe = tea_Run m ->
     state m = "loading_projects" /\
     projects m = [] /\ activeTimer m = None /\
     AccountID (config (harvestClient m)) = account /\
     AccessToken (config (harvestClient m)) = token /\
     BaseURL (config (harvestClient m)) = defaultBaseURL /\
     Init m = Some (fetchProjects (harvestClient m))) /\
  (account = EmptyString \/ token = EmptyString ->
   exists msg, main account token probe = log_Fatal msg).
Proof.
  unfold main. cbn [AccountID AccessToken].
  destruct (String.eqb_spec account EmptyString) as [Ha|Ha];
    destruct (String.eqb_spec token EmptyString) as [Ht|Ht]; cbn [orb].
  1-3: split_and!;
    [split; [intros [m Hm]; discriminate Hm|intros (? & ? & _); done]
    |intros m Hm; discriminate Hm
    |intros _; eauto].
  assert (TestConnection probe = None <->
          exists status body u, probe = Reply status body u /\ status <= 399) as Hprobe.
  { destruct probe as [err|status body u]; simpl.
    - split; [discriminate|intros (s & b & e & Heq & _); discriminate Heq].
    - unfold IsError. destruct (399 <? status) eqn:He.
      + split; [discriminate|].
        intros (s & b & e & [= <- <- <-] & Hs). apply Z.ltb_lt in He. lia.
      + split; [|done]. intros _. apply Z.ltb_ge in He. eauto. }
  destruct (TestConnection probe) as [err|].
  - split_and!.
    + split; [intros [m Hm]; discriminate Hm|].
      intros (_ & _ & Hp). apply Hprobe in Hp. discriminate Hp.
    + intros m Hm. discriminate Hm.
    + intros [?|?]; done.
  - split_and!.
    + split; [|eauto]. intros _. split_and!; try done. by apply Hprobe.
    + intros m [= <-]. split_and!; reflexivity.
    + intros [?|?]; done.
Qed.
End MainFacts.

(** ** The transition function: what is issued, and when *)

(** Name the result of the component updates and what they leave alone. *)
Ltac components :=
  repeat match goal with
  | |- context [Update_components ?m ?msg] =>
      let Hf := fresh "Hf" in
      let Hop := fresh "Hop" in
      let mc := fresh "mc" in
      let cc := fresh "cc" in
      destruct (Update_components_frame m msg) as [Hf Hop];
      unfold same_but_components in Hf;
      destruct (Update_components m msg) as [mc cc];
      fields; destruct_and!
  end.

(** Case analysis over the tests of one branch. *)
Ltac branches :=
  repeat match goal with
  | |- context [if ?b then _ else _] =>
      let E := fresh "E" in destruct b eqn:E
  | |- context [match activeTimer ?m with _ => _ end] =>
      let E := fresh "E" in destruct (activeTimer m) eqn:E
  end.

Section IssuedFacts.
Context {TK : Toolkit} {B : Bubbles}.

(** Whatever the message, a command that is one of the four operations
    comes from the ["enter"] branch. *)
Lemma operation_from_enter (m : Model) (msg : Msg) :
  is_operation (Update m msg).2 = true ->
  exists k, msg = Key k /\ KeyMsg_String k = "enter" /\
            Update m msg = Update_enter m msg.
Proof.
  destruct msg as [k|ps|ts|t|ok|e|w h|x]; unfold Update; cbv zeta;
    try destruct docStyle_GetFrameSize; try (components; congruence).
  destruct (_ || _); [discriminate|].
  destruct (String.eqb (KeyMsg_String k) "?"); [discriminate|].
  destruct (String.eqb (KeyMsg_String k) "esc").
  { unfold Update_esc. branches; fields; try discriminate. components. congruence. }
  destruct (String.eqb_spec (KeyMsg_String k) "enter") as [Hk|Hk].
  - intros _. by exists k.
  - components. congruence.
Qed.

(** The ["enter"] branch, read backwards from the command it returns. *)
Lemma Update_enter_operation (m : Model) (msg : Msg) (c : Cmd) :
  (Update_enter m msg).2 = Some c ->
  is_operation (Some c) = true ->
  (state m = "select_project" /\
   exists p, 0 <= list_Index (projectList m) < len (projects m) /\
             projects m !! Z.to_nat (list_Index (projectList m)) = Some p /\
             c = fetchTasks (harvestClient m) (Project_ID p) /\
             state (Update_enter m msg).1 = "loading_tasks" /\
             selectedProject (Update_enter m msg).1 = p)
  \/
  (state m = "enter_details" /\
   textinput_Value (ticketInput m) <> EmptyString /\
   state (Update_enter m msg).1 = "enter_details" /\
   match activeTimer m with
   | Some t => c = stopTimer (harvestClient m) (Timer_ID t)
   | None => c = startTimer (harvestClient m) (Project_ID (selectedProject m))
                   (Task_ID (selectedTask m)) (textinput_Value (ticketInput m))
   end).
Proof.
  unfold Update_enter. fields.
  destruct (String.eqb_spec (state m) "select_project") as [Hs|Hs].
  - destruct (0 <? len (projects m)) eqn:Hlen; [|components; congruence].
    destruct (0 <=? list_Index (projectList m)) eqn:H0; cbn [andb];
      [|components; congruence].
    destruct (list_Index (projectList m) <? len (projects m)) eqn:H1;
      [|components; congruence].
    fields. intros [= <-] _. left. split; [done|].
    apply Z.leb_le in H0. apply Z.ltb_lt in H1.
    destruct (projects m !! Z.to_nat (list_Index (projectList m))) as [p|] eqn:Hp.
    2:{ apply lookup_ge_None in Hp. unfold len in H1. lia. }
    exists p. simpl. split_and!; try done; lia.
  - destruct (String.eqb (state m) "select_task").
    { branches; fields; try discriminate; components; congruence. }
    destruct (String.eqb_spec (state m) "enter_details") as [Hd|Hd];
      [|components; congruence].
    destruct (String.eqb_spec (textinput_Value (ticketInput m)) EmptyString) as [Hv|Hv];
      fields; [discriminate|].
    destruct (activeTimer m) as [t|]; fields; intros [= <-] _; right; done.
Qed.

(** X9: [startTimer] and [stopTimer] are issued by a confirm in
    ["enter_details"] with a non-empty notes field and by nothing else.
    [startTimer] is issued only while no timer is tracked and carries the
    selected project, the selected task and the notes as typed;
    [stopTimer] is issued only while a timer is tracked and carries that
    timer's id. *)
Theorem timer_operations_come_from_confirm (m : Model) (msg : Msg) :
  (forall client projectID taskID notes,
     (Update m msg).2 = Some (startTimer client projectID taskID notes) ->
     (exists k, msg = Key k /\ KeyMsg_String k = "enter") /\
     state m = "enter_details" /\
     activeTimer m = None /\
     notes = textinput_Value (ticketInput m) /\
     notes <> EmptyString /\
     client = harvestClient m /\
     projectID = Project_ID (selectedProject m) /\
     taskID = Task_ID (selectedTask m)) /\
  (forall client timerID,
     (Update m msg).2 = Some (stopTimer client timerID) ->
     (exists k, msg = Key k /\ KeyMsg_String k = "enter") /\
     state m = "enter_details" /\
     textinput_Value (ticketInput m) <> EmptyString /\
     client = harvestClient m /\
     exists t, activeTimer m = Some t /\ timerID = Timer_ID t).
Proof.
  split.
  - intros client projectID taskID notes Hc.
    destruct (operation_from_enter m msg) as (k & -> & Hk & Heq);
      [by rewrite Hc|].
    rewrite Heq in Hc.
    destruct (Update_enter_operation m (Key k) _ Hc eq_refl)
      as [(_ & p & _ & _ & Hp & _)|(Hs & Hv & _ & Ht)]; [discriminate Hp|].
    destruct (activeTimer m) as [t|]; [discriminate Ht|].
    injection Ht as -> -> -> ->. split_and!; eauto.
  - intros client timerID Hc.
    destruct (operation_from_enter m msg) as (k & -> & Hk & Heq);
      [by rewrite Hc|].
    rewrite Heq in Hc.
    destruct (Update_enter_operation m (Key k) _ Hc eq_refl)
      as [(_ & p & _ & _ & Hp & _)|(Hs & Hv & _ & Ht)]; [discriminate Hp|].
    destruct (activeTimer m) as [t|]; [|discriminate Ht].
    injection Ht as -> ->. split_and!; eauto.
Qed.

(** X10: [Update] never issues [fetchProjects], and it issues [fetchTasks]
    only for a select in ["select_project"] whose highlighted index lies
    within the stored project list: the id sent is the id of the project at
    that index, which becomes the selected project as the state moves to
    ["loading_tasks"]. *)
Theorem listing_operations_come_from_select (m : Model) (msg : Msg) :
  (forall client, (Update m msg).2 <> Some (fetchProjects client)) /\
  (forall client projectID,
     (Update m msg).2 = Some (fetchTasks client projectID) ->
     (exists k, msg = Key k /\ KeyMsg_String k = "enter") /\
     state m = "select_project" /\
     client = harvestClient m /\
     0 <= list_Index (projectList m) < len (projects m) /\
     exists p,
       projects m !! Z.to_nat (list_Index (projectList m)) = Some p /\
       projectID = Project_ID p /\
       selectedProject (Update m msg).1 = p /\
       state (Update m msg).1 = "loading_tasks").
Proof.
  split.
  - intros client Hc.
    destruct (operation_from_enter m msg) as (k & -> & Hk & Heq);
      [by rewrite Hc|].
    rewrite Heq in Hc.
    destruct (Update_enter_operation m (Key k) _ Hc eq_refl)
      as [(_ & p & _ & _ & Hp & _)|(_ & _ & _ & Ht)]; [discriminate Hp|].
    destruct (activeTimer m); discriminate Ht.
  - intros client projectID Hc.
    destruct (operation_from_enter m msg) as (k & -> & Hk & Heq);
      [by rewrite Hc|].
    rewrite Heq in Hc |- *.
    destruct (Update_enter_operation m (Key k) _ Hc eq_refl)
      as [(Hs & p & Hidx & Hp & Hcp & Hst & Hsel)|(_ & _ & _ & Ht)].
    + injection Hcp as -> ->. split_and!; eauto; lia.
    + destruct (activeTimer m); discriminate Ht.
Qed.

End IssuedFacts.

(** ** The transition function: which message writes which field *)

Section FieldFacts.
Context {TK : Toolkit} {B : Bubbles}.

(** X12: the tracked timer, the project list and the task list each have
    one writer.  [activeTimer] changes only when a start result or a
    successful stop result arrives, [projects] only when a project list
    arrives, [tasks] only when a task list arrives; keys, failures,
    resizes and toolkit messages leave all three alone. *)
Theorem one_writer_per_field (m : Model) (msg : Msg) :
  activeTimer (Update m msg).1 =
    match msg with
    | startTimerMsg timer => timer
    | stopTimerMsg true => None
    | _ => activeTimer m
    end /\
  projects (Update m msg).1 =
    match msg with fetchProjectsMsg ps => ps | _ => projects m end /\
  tasks (Update m msg).1 =
    match msg with fetchTasksMsg ts => ts | _ => tasks m end.
Proof.
  destruct msg as [k|ps|ts|t|ok|e|w h|x]; unfold Update; cbv zeta;
    try destruct docStyle_GetFrameSize;
    try (try destruct ok; try destruct (_ || _); components;
         split_and!; congruence).
  destruct (_ || _); [done|].
  destruct (String.eqb (KeyMsg_String k) "?"); [done|].
  destruct (String.eqb (KeyMsg_String k) "esc").
  { unfold Update_esc. branches; fields; try done. components. split_and!; congruence. }
  destruct (String.eqb (KeyMsg_String k) "enter");
    [|components; split_and!; congruence].
  unfold Update_enter. fields.
  branches; fields; try done; components; split_and!; congruence.
Qed.

(** *** The help overlay and the quit flag *)

Lemma Update_components_showHelp (m : Model) (msg : Msg) (b : bool) :
  Update_components (set_showHelp b m) msg =
    (set_showHelp b (Update_components m msg).1, (Update_components m msg).2).
Proof.
  unfold Update_components, Update_lists. fields.
  branches; try reflexivity;
    repeat match goal with
    | |- context [let '(_, _) := ?u in _] => destruct u as [? ?]
    end; reflexivity.
Qed.

(** X13: the help overlay matters to two keys only.  While it is shown,
    ["esc"] hides it and does nothing else; and for every message other
    than the keys ["?"] and ["esc"], [Update] does the same with the
    overlay shown or hidden and leaves the flag as it is: a confirm or a
    select pressed under the overlay acts on the screen below. *)
Theorem help_overlay_only_matters_to_esc (m : Model) (msg : Msg) (b : bool) :
  (forall k, showHelp m = true -> KeyMsg_String k = "esc" ->
             Update m (Key k) = (set_showHelp false m, None)) /\
  ((forall k, msg = Key k -> KeyMsg_String k <> "?" /\ KeyMsg_String k <> "esc") ->
   Update (set_showHelp b m) msg = (set_showHelp b (Update m msg).1, (Update m msg).2)).
Proof.
  split.
  - intros k Hh Hk. rewrite (Update_esc_key m k Hk). unfold Update_esc. by rewrite Hh.
  - intros Hk.
    destruct msg as [k|ps|ts|t|ok|e|w h|x]; unfold Update; cbv zeta;
      try destruct docStyle_GetFrameSize; fields;
      try (try destruct ok; try destruct (_ || _);
           match goal with |- Update_components ?m1 _ = (set_showHelp _ (Update_components ?m2 _).1, _) =>
             change m1 with (set_showHelp b m2) end;
           apply Update_components_showHelp).
    destruct (Hk k eq_refl) as [Hq He].
    apply String.eqb_neq in Hq, He. rewrite Hq, He.
    destruct (_ || _); [reflexivity|].
    destruct (String.eqb (KeyMsg_String k) "enter"); [|apply Update_components_showHelp].
    unfold Update_enter. fields.
    branches; fields; try reflexivity;
      match goal with |- Update_components ?m1 _ = (set_showHelp _ (Update_components ?m2 _).1, _) =>
        change m1 with (set_showHelp b m2) end;
      apply Update_components_showHelp.
Qed.

Lemma Update_keeps_quitting (m : Model) (msg : Msg) :
  quitting m = true -> quitting (Update m msg).1 = true.
Proof.
  intros Hq.
  destruct msg as [k|ps|ts|t|ok|e|w h|x]; unfold Update; cbv zeta;
    try destruct docStyle_GetFrameSize;
    try (try destruct ok; try destruct (_ || _); components; congruence).
  destruct (_ || _); [done|].
  destruct (String.eqb (KeyMsg_String k) "?"); [done|].
  destruct (String.eqb (KeyMsg_String k) "esc").
  { unfold Update_esc. branches; fields; try done. components. congruence. }
  destruct (String.eqb (KeyMsg_String k) "enter"); [|components; congruence].
  unfold Update_enter. fields.
  branches; fields; try done; components; congruence.
Qed.

(** X14: quitting is final.  After the key ["q"] or ["ctrl+c"], whatever
    messages are still delivered, [quitting] stays set and the view is the
    farewell line. *)
Theorem quit_is_final (m : Model) (k : KeyMsg) (msgs : list Msg) :
  KeyMsg_String k = "q" \/ KeyMsg_String k = "ctrl+c" ->
  quitting (Update_all (Update m (Key k)).1 msgs) = true /\
  View (Update_all (Update m (Key k)).1 msgs) = "Bye!" +:+ LF.
Proof.
  intros Hk. rewrite (Update_quit_key m k Hk). fields.
  assert (forall m0, quitting m0 = true -> quitting (Update_all m0 msgs) = true) as Hall.
  { induction msgs as [|msg msgs IH]; intros m0 Hq; [done|].
    simpl. apply IH. by apply Update_keeps_quitting. }
  assert (quitting (Update_all (set_quitting true m) msgs) = true) as Hq
    by (by apply Hall).
  split; [done|]. unfold View. by rewrite Hq.
Qed.

(** *** Keys while nothing can be selected *)

Lemma Update_components_idle (m : Model) (msg : Msg) :
  state m = "loading_projects" \/ state m = "loading_tasks" \/ state m = "error" ->
  Update_components m msg = (m, None).
Proof.
  intros Hs. unfold Update_components, Update_lists.
  destruct Hs as [Hs|[Hs|Hs]]; rewrite Hs; reflexivity.
Qed.

(** X15: in ["loading_projects"], ["loading_tasks"] and ["error"] the
    keyboard can quit and toggle the help, nothing more: no key changes the
    state, the lists, the selections, the timer or any toolkit component,
    and no key issues an operation. *)
Theorem keys_while_loading_or_failed (m : Model) (k : KeyMsg) :
  state m = "loading_projects" \/ state m = "loading_tasks" \/ state m = "error" ->
  state (Update m (Key k)).1 = state m /\
  projects (Update m (Key k)).1 = projects m /\
  tasks (Update m (Key k)).1 = tasks m /\
  selectedProject (Update m (Key k)).1 = selectedProject m /\
  selectedTask (Update m (Key k)).1 = selectedTask m /\
  activeTimer (Update m (Key k)).1 = activeTimer m /\
  ticketInput (Update m (Key k)).1 = ticketInput m /\
  projectList (Update m (Key k)).1 = projectList m /\
  taskList (Update m (Key k)).1 = taskList m /\
  ((Update m (Key k)).2 = None \/ (Update m (Key k)).2 = Some tea_Quit).
Proof.
  intros Hs. unfold Update.
  destruct (_ || _); [fields; split_and!; auto|].
  destruct (String.eqb (KeyMsg_String k) "?"); [fields; split_and!; auto|].
  destruct (String.eqb (KeyMsg_String k) "esc").
  { unfold Update_esc. destruct (showHelp m); [fields; split_and!; auto|].
    rewrite (Update_components_idle m _ Hs).
    destruct Hs as [Hs|[Hs|Hs]]; rewrite Hs; literals; fields; split_and!; auto. }
  destruct (String.eqb (KeyMsg_String k) "enter").
  - unfold Update_enter. fields.
    rewrite (Update_components_idle (set_success EmptyString (set_error EmptyString m)) _ Hs).
    destruct Hs as [Hs|[Hs|Hs]]; rewrite Hs; literals; fields; split_and!; auto.
  - rewrite (Update_components_idle m _ Hs). fields. split_and!; auto.
Qed.
End FieldFacts.

(** ** The transition function: selecting and confirming *)

Section ConfirmFacts.
Context {TK : Toolkit} {B : Bubbles}.

(** X16: a confirm does not disarm itself.  In ["enter_details"] with a
    non-empty notes field the confirm issues its operation and leaves the
    state where it is, so a second confirm pressed before the result
    arrives returns the same model and issues the same operation again. *)
Theorem confirm_is_repeatable (m : Model) (k : KeyMsg) :
  state m = "enter_details" ->
  textinput_Value (ticketInput m) <> EmptyString ->
  KeyMsg_String k = "enter" ->
  is_operation (Update m (Key k)).2 = true /\
  Update (Update m (Key k)).1 (Key k) = Update m (Key k).
Proof.
  intros Hs Hv Hk. rewrite !(Update_enter_key _ k Hk).
  rewrite (Update_enter_details m _ Hs). cbv zeta.
  apply String.eqb_neq in Hv as Hb. rewrite Hb.
  destruct (activeTimer m) as [t|] eqn:Ht; fields.
  - split; [reflexivity|].
    rewrite Update_enter_details by (fields; exact Hs). cbv zeta. fields.
    rewrite Hb, Ht. reflexivity.
  - split; [reflexivity|].
    rewrite Update_enter_details by (fields; exact Hs). cbv zeta. fields.
    rewrite Hb, Ht. reflexivity.
Qed.

(** X17: a select on a highlighted task stores the task at the highlighted
    index as the selected task, moves to ["enter_details"], focuses the
    notes field and issues nothing; the task list, the selected project and
    the timer are as before and both messages are cleared. *)
Theorem select_task_at_index (m : Model) (k : KeyMsg) :
  state m = "select_task" ->
  0 <= list_Index (taskList m) < len (tasks m) ->
  KeyMsg_String k = "enter" ->
  exists t,
    tasks m !! Z.to_nat (list_Index (taskList m)) = Some t /\
    Update m (Key k) =
      (set_ticketInput (textinput_Focus (ticketInput m))
         (set_state "enter_details"
            (set_selectedTask t (set_success EmptyString (set_error EmptyString m)))),
       None).
Proof.
  intros Hs Hidx Hk. unfold len in Hidx.
  destruct (tasks m !! Z.to_nat (list_Index (taskList m))) as [t|] eqn:Ht.
  2:{ apply lookup_ge_None in Ht. lia. }
  exists t. split; [done|].
  rewrite (Update_enter_key m k Hk). unfold Update_enter. fields.
  rewrite Hs. literals. unfold len.
  replace (0 <? Z.of_nat (length (tasks m))) with true
    by (symmetry; apply Z.ltb_lt; lia).
  replace (0 <=? list_Index (taskList m)) with true
    by (symmetry; apply Z.leb_le; lia).
  replace (list_Index (taskList m) <? Z.of_nat (length (tasks m))) with true
    by (symmetry; apply Z.ltb_lt; lia).
  cbn [andb]. rewrite Ht. reflexivity.
Qed.

(** X18: start, then stop.  When the start result arrives in
    ["enter_details"] the success line names the notes; a confirm pressed
    next (notes still non-empty) issues [stopTimer] for the id the service
    returned; and when that stop succeeds the timer is cleared and the
    success line reads "Timer stopped". *)
Theorem start_then_stop (m : Model) (k : KeyMsg)
    (projectID taskID : Z) (notes : string) (resp : Response Timer) (t : Timer)
    (stopped : Response unit) :
  state m = "enter_details" ->
  KeyMsg_String k = "enter" ->
  StartTimer projectID taskID notes resp = Returned t ->
  StopTimer (Timer_ID t) stopped = None ->
  textinput_Value
    (ticketInput (Update m (startTimer_run projectID taskID notes resp)).1)
    <> EmptyString ->
  let m1 := (Update m (startTimer_run projectID taskID notes resp)).1 in
  let m2 := (Update m1 (Key k)).1 in
  let m3 := (Update m2 (stopTimer_run (Timer_ID t) stopped)).1 in
  success m1 = "Timer started for: " +:+ textinput_Value (ticketInput m) /\
  (Update m1 (Key k)).2 = Some (stopTimer (harvestClient m) (Timer_ID t)) /\
  activeTimer m2 = Some t /\
  activeTimer m3 = None /\
  success m3 = "Timer stopped" /\
  state m3 = "enter_details".
Proof.
  intros Hs Hk Hstart Hstop Hv m1 m2 m3. fold m1 in Hv.
  assert (state m1 = "enter_details" /\ activeTimer m1 = Some t /\
          harvestClient m1 = harvestClient m /\
          success m1 = "Timer started for: " +:+ textinput_Value (ticketInput m))
    as (Hs1 & Ht1 & Hc1 & Hsucc1).
  { subst m1. unfold startTimer_run. rewrite Hstart. unfold Update. cbv zeta.
    components. split_and!; congruence. }
  clearbody m1.
  assert (Update m1 (Key k) =
          (set_success EmptyString (set_error EmptyString m1),
           Some (stopTimer (harvestClient m) (Timer_ID t)))) as Hconfirm.
  { rewrite (Update_enter_key m1 k Hk), (Update_enter_details m1 _ Hs1). cbv zeta.
    apply String.eqb_neq in Hv. rewrite Hv, Ht1, Hc1. reflexivity. }
  subst m2 m3. rewrite Hconfirm. fields.
  unfold stopTimer_run. rewrite Hstop. unfold Update. cbv zeta.
  components. split_and!; congruence.
Qed.

(** X19: a press of ["enter"] never leaves an old message behind.  The
    success line is always cleared, and the error line is either cleared or
    replaced by the validation text, the latter exactly when the press was
    a confirm in ["enter_details"] with an empty notes field. *)
Theorem enter_clears_messages (m : Model) (k : KeyMsg) :
  KeyMsg_String k = "enter" ->
  success (Update m (Key k)).1 = EmptyString /\
  error (Update m (Key k)).1 =
    (if String.eqb (state m) "enter_details"
        && String.eqb (textinput_Value (ticketInput m)) EmptyString
     then "Please enter ticket number and description"
     else EmptyString).
Proof.
  intros Hk. rewrite (Update_enter_key m k Hk). unfold Update_enter. fields.
  destruct (String.eqb_spec (state m) "select_project") as [Hs|Hs].
  { rewrite Hs. literals. branches; fields; try done; components; split; congruence. }
  destruct (String.eqb_spec (state m) "select_task") as [Ht|Ht].
  { rewrite Ht. literals. branches; fields; try done; components; split; congruence. }
  destruct (String.eqb (state m) "enter_details"); cbn [andb].
  - branches; fields; done.
  - components. split; congruence.
Qed.
End ConfirmFacts.

(** ** The state machine as a whole *)

Section StepFacts.
Context {TK : Toolkit} {B : Bubbles}.

Lemma not_operation_not_listing (c : option Cmd) :
  is_operation c = false -> forall x, c = Some x -> is_listing x = false.
Proof. intros Hop x ->. by destruct x. Qed.

Ltac stay :=
  apply Step_stay; fields;
    try congruence; try discriminate;
    try (by apply not_operation_not_listing);
    try (intros ? [= <-]; reflexivity).

(** Every call of [Update] is one of the steps. *)
Lemma Update_Step (m : Model) (msg : Msg) :
  Step m msg (Update m msg).1 (Update m msg).2.
Proof.
  destruct msg as [k|ps|ts|t|ok|e|w h|x]; unfold Update; cbv zeta.
  - destruct (_ || _); [stay|].
    destruct (String.eqb (KeyMsg_String k) "?"); [stay|].
    destruct (String.eqb_spec (KeyMsg_String k) "esc") as [Hesc|Hesc].
    { unfold Update_esc. destruct (showHelp m); [stay|].
      destruct (String.eqb_spec (state m) "select_task") as [Hs|Hs].
      { by eapply Step_back_to_projects. }
      destruct (String.eqb_spec (state m) "enter_details") as [Hd|Hd].
      { by eapply Step_back_to_tasks. }
      components. stay. }
    destruct (String.eqb_spec (KeyMsg_String k) "enter") as [Hent|Hent];
      [|components; stay].
    unfold Update_enter. fields.
    destruct (String.eqb_spec (state m) "select_project") as [Hs|Hs].
    { destruct (0 <? len (projects m)) eqn:Hlen; [|components; stay].
      destruct (0 <=? list_Index (projectList m)) eqn:H0; cbn [andb];
        [|components; stay].
      destruct (list_Index (projectList m) <? len (projects m)) eqn:H1;
        [|components; stay].
      apply Z.leb_le in H0. apply Z.ltb_lt in H1. unfold len in H1.
      destruct (projects m !! Z.to_nat (list_Index (projectList m))) as [p|] eqn:Hp.
      2:{ apply lookup_ge_None in Hp. lia. }
      eapply (Step_pick_project _ _ _ _ k p); fields; try done.
      by eapply list_elem_of_lookup_2. }
    destruct (String.eqb_spec (state m) "select_task") as [Ht|Ht].
    { destruct (0 <? len (tasks m)) eqn:Hlen; [|components; stay].
      destruct (0 <=? list_Index (taskList m)) eqn:H0; cbn [andb];
        [|components; stay].
      destruct (list_Index (taskList m) <? len (tasks m)) eqn:H1;
        [|components; stay].
      apply Z.leb_le in H0. apply Z.ltb_lt in H1. unfold len in H1.
      destruct (tasks m !! Z.to_nat (list_Index (taskList m))) as [t|] eqn:Htk.
      2:{ apply lookup_ge_None in Htk. lia. }
      eapply (Step_pick_task _ _ _ _ k t); fields; try done.
      by eapply list_elem_of_lookup_2. }
    destruct (String.eqb (state m) "enter_details"); [|components; stay].
    destruct (String.eqb (textinput_Value (ticketInput m)) EmptyString); [stay|].
    destruct (activeTimer m); stay.
  - components. eapply Step_projects_arrive; try done; try congruence.
    by apply not_operation_not_listing.
  - components. eapply Step_tasks_arrive; try done; try congruence.
    by apply not_operation_not_listing.
  - components. stay.
  - destruct ok; components; stay.
  - fields.
    destruct (String.eqb (state m) "loading_projects") eqn:H1; cbn [orb].
    { apply String.eqb_eq in H1.
      components. eapply Step_loading_fails; try done; auto; try congruence.
      by apply not_operation_not_listing. }
    destruct (String.eqb (state m) "loading_tasks") eqn:H2.
    { apply String.eqb_eq in H2.
      components. eapply Step_loading_fails; try done; auto; try congruence.
      by apply not_operation_not_listing. }
    components. stay.
  - destruct docStyle_GetFrameSize. components. stay.
  - components. stay.
Qed.
End StepFacts.

(** ** Listing requests in flight *)

Section InFlight.
Context {TK : Toolkit}.

Lemma at_most_one_delete (P : Cmd -> bool) (l : list Cmd) (n : nat) :
  at_most_one P l -> at_most_one P (delete n l).
Proof.
  intros Hl i j c d Hi Hj Hc Hd.
  rewrite list_lookup_delete in Hi, Hj.
  pose proof (Hl _ _ c d Hi Hj Hc Hd) as Heq.
  repeat case_decide; lia.
Qed.

Lemma none_after_delete (P : Cmd -> bool) (l : list Cmd) (n : nat) (c : Cmd) :
  at_most_one P l -> l !! n = Some c -> P c = true -> none_of P (delete n l).
Proof.
  intros Hl Hn Hc d Hd. destruct (P d) eqn:HP; [|done]. exfalso.
  apply list_elem_of_lookup in Hd as [j Hj]. rewrite list_lookup_delete in Hj.
  pose proof (Hl _ _ d c Hj Hn HP Hc) as Heq.
  case_decide; lia.
Qed.

Lemma not_some_none (P : Cmd -> bool) (l : list Cmd) :
  ~ some_of P l -> none_of P l.
Proof.
  intros Hno c Hc. destruct (P c) eqn:HP; [|done]. destruct Hno. by exists c.
Qed.

Lemma some_none_absurd (P : Cmd -> bool) (l : list Cmd) :
  some_of P l -> none_of P l -> False.
Proof. intros (c & Hc & HP) Hno. rewrite (Hno c Hc) in HP. discriminate HP. Qed.

Lemma some_of_incl (P : Cmd -> bool) (l k : list Cmd) :
  (forall c, c ∈ l -> c ∈ k) -> some_of P l -> some_of P k.
Proof. intros Hincl (c & Hc & HP). exists c. auto. Qed.

Lemma none_of_incl (P : Cmd -> bool) (l k : list Cmd) :
  (forall c, c ∈ l -> c ∈ k) -> none_of P k -> none_of P l.
Proof. intros Hincl Hno c Hc. auto. Qed.

Lemma some_of_issue (P : Cmd -> bool) (l : list Cmd) (c : option Cmd) :
  (forall x, c = Some x -> P x = false) ->
  some_of P (l ++ option_list c) -> some_of P l.
Proof.
  intros Hc (x & [Hx|Hx]%elem_of_app & HP); [by exists x|].
  destruct c as [y|]; simpl in Hx; [|by apply elem_of_nil in Hx].
  apply list_elem_of_singleton in Hx as ->. rewrite (Hc y eq_refl) in HP. discriminate HP.
Qed.

Lemma none_of_issue (P : Cmd -> bool) (l : list Cmd) (c : option Cmd) :
  (forall x, c = Some x -> P x = false) ->
  none_of P l -> none_of P (l ++ option_list c).
Proof.
  intros Hc Hno. apply not_some_none. intros Hsome.
  apply some_of_issue in Hsome; [|done]. by eapply some_none_absurd.
Qed.

Lemma at_most_one_issue (P : Cmd -> bool) (l : list Cmd) (c : option Cmd) :
  (forall x, c = Some x -> P x = false) ->
  at_most_one P l -> at_most_one P (l ++ option_list c).
Proof.
  intros Hc Hl i j x y Hi Hj Hx Hy.
  assert (forall n z, (l ++ option_list c) !! n = Some z -> P z = true -> l !! n = Some z)
    as Hin.
  { intros n z Hn Hz. apply lookup_app_Some in Hn as [Hn|[_ Hn]]; [done|].
    destruct c as [u|]; simpl in Hn; [|by rewrite lookup_nil in Hn].
    apply list_elem_of_lookup_2, list_elem_of_singleton in Hn as ->.
    rewrite (Hc u eq_refl) in Hz. discriminate Hz. }
  eapply Hl; eauto.
Qed.

Lemma at_most_one_first (P : Cmd -> bool) (l : list Cmd) (c : option Cmd) :
  none_of P l -> at_most_one P (l ++ option_list c).
Proof.
  intros Hno i j x y Hi Hj Hx Hy.
  assert (forall n z, (l ++ option_list c) !! n = Some z -> P z = true -> n = length l)
    as Hat.
  { intros n z Hn Hz. apply lookup_app_Some in Hn as [Hn|[Hge Hn]].
    - apply list_elem_of_lookup_2 in Hn. rewrite (Hno z Hn) in Hz. discriminate Hz.
    - destruct c as [u|]; simpl in Hn; [|by rewrite lookup_nil in Hn].
      apply lookup_lt_Some in Hn. simpl in Hn. lia. }
  rewrite (Hat i x Hi Hx), (Hat j y Hj Hy). reflexivity.
Qed.

Lemma at_most_one_filter (P : Cmd -> bool) (l : list Cmd) :
  at_most_one P l -> (length (List.filter P l) <= 1)%nat.
Proof.
  induction l as [|c l IH]; intros Hl; [simpl; lia|].
  simpl. destruct (P c) eqn:HP.
  - assert (List.filter P l = []) as ->; [|simpl; lia].
    destruct (List.filter P l) as [|d r] eqn:Hf; [done|]. exfalso.
    assert (In d (List.filter P l)) as Hd by (rewrite Hf; by left).
    apply filter_In in Hd as [Hd HPd].
    apply list_elem_of_In, list_elem_of_lookup in Hd as [j Hj].
    pose proof (Hl 0%nat (S j) c d eq_refl Hj HP HPd). lia.
  - apply IH. intros i j x y Hi Hj Hx Hy.
    pose proof (Hl (S i) (S j) x y Hi Hj Hx Hy). lia.
Qed.
End InFlight.

Section DisciplineFacts.
Context {TK : Toolkit} {B : Bubbles} {R : MapRange}.

Lemma listing_split (x : Cmd) :
  is_listing x = false -> is_fetchProjects x = false /\ is_fetchTasks x = false.
Proof. unfold is_listing. apply orb_false_iff. Qed.

(** Only the completion of [fetchTasks] delivers a task list. *)
Lemma perform_fetchTasksMsg (c : Cmd) (a : Answer) (ts : list Task) :
  perform c a = Some (fetchTasksMsg ts) -> is_fetchTasks c = true.
Proof.
  destruct c as [|client|client pid|client pid tid notes|client tid|fc];
    destruct a as [resp|resp|resp|resp|x|]; simpl; try discriminate; try done.
  - unfold fetchProjects_run. destruct (GetProjects resp); discriminate.
  - unfold startTimer_run. destruct (StartTimer pid tid notes resp); discriminate.
  - unfold stopTimer_run. destruct (StopTimer tid resp); discriminate.
Qed.

Lemma boot_discipline (c : Configuration) : listing_discipline (boot c).
Proof.
  unfold listing_discipline. simpl. split_and!.
  - intros [|i] [|j] x y Hi Hj _ _; try done;
      simpl in Hi, Hj; by rewrite ?lookup_nil in Hi, Hj.
  - intros [|i] [|j] x y Hi Hj Hx Hy; simpl in Hi, Hj.
    + injection Hi as <-. discriminate Hx.
    + injection Hi as <-. discriminate Hx.
    + injection Hj as <-. discriminate Hy.
    + by rewrite lookup_nil in Hi.
  - intros _. split; [done|]. intros x Hx.
    apply list_elem_of_singleton in Hx as ->. reflexivity.
  - intros (x & Hx & HP). apply list_elem_of_singleton in Hx as ->. discriminate HP.
  - intros [H|[H|H]]; discriminate H.
  - intros H; discriminate H.
  - by left.
Qed.

Lemma dispatch_discipline (w : World) (pending : list Cmd) (e : Entry) (msg : Msg) :
  listing_discipline w ->
  (forall P, at_most_one P (inflight w) -> at_most_one P pending) ->
  (forall c, c ∈ pending -> c ∈ inflight w) ->
  (forall ps, msg = fetchProjectsMsg ps ->
     some_of is_fetchProjects (inflight w) /\ none_of is_fetchProjects pending) ->
  (forall ts, msg = fetchTasksMsg ts ->
     some_of is_fetchTasks (inflight w) /\ none_of is_fetchTasks pending) ->
  listing_discipline (dispatch w pending e msg).
Proof.
  intros (Ia & Ib & Ic & Id & Ie & If & Ig) Hone Hincl Hps Hts.
  unfold dispatch. pose proof (Update_Step (model w) msg) as HS.
  destruct (Update (model w) msg) as [m' c]. simpl in HS.
  unfold listing_discipline. simpl.
  (* what the command issued can be *)
  assert (forall x, c = Some x -> is_fetchProjects x = false) as HnoP.
  { destruct HS as [Hst Hpr Hta Hsp Hstk Hc Hn1 Hn2
      |ps Hmsg Hst Hpr Hta Hsp Hstk Hc
      |ts Hmsg Hst Hpr Hta Hsp Hstk Hc
      |e0 Hmsg Hload Hst Hpr Hta Hsp Hstk Hc
      |k Hmsg Hk Hs0 Hst Hpr Hta Hsp Hstk Hc
      |k Hmsg Hk Hs0 Hst Hpr Hta Hsp Hstk Hc
      |k p Hmsg Hk Hs0 Hst Hin Hpr Hta Hsp Hstk Hc
      |k t Hmsg Hk Hs0 Hst Hin Hpr Hta Hsp Hstk Hc];
      try (intros x Hx; by apply listing_split; auto);
      subst c; try discriminate. by intros x [= <-]. }
  assert (state m' <> "loading_tasks" ->
          forall x, c = Some x -> is_fetchTasks x = false) as HnoT.
  { intros Hnl. destruct HS as [Hst Hpr Hta Hsp Hstk Hc Hn1 Hn2
      |ps Hmsg Hst Hpr Hta Hsp Hstk Hc
      |ts Hmsg Hst Hpr Hta Hsp Hstk Hc
      |e0 Hmsg Hload Hst Hpr Hta Hsp Hstk Hc
      |k Hmsg Hk Hs0 Hst Hpr Hta Hsp Hstk Hc
      |k Hmsg Hk Hs0 Hst Hpr Hta Hsp Hstk Hc
      |k p Hmsg Hk Hs0 Hst Hin Hpr Hta Hsp Hstk Hc
      |k t Hmsg Hk Hs0 Hst Hin Hpr Hta Hsp Hstk Hc];
      try (intros x Hx; by apply listing_split; auto);
      subst c; discriminate. }
  assert (forall P, some_of P pending -> some_of P (inflight w)) as Hsome
    by (intros P; by apply some_of_incl).
  assert (forall P, none_of P (inflight w) -> none_of P pending) as Hnone
    by (intros P; by apply none_of_incl).
  split_and!.
  - apply at_most_one_issue; auto.
  - destruct (decide (state m' = "loading_tasks")) as [Hlt|Hlt];
      [|apply at_most_one_issue; auto].
    destruct HS as [Hst Hpr Hta Hsp Hstk Hc Hn1 Hn2
      |ps Hmsg Hst Hpr Hta Hsp Hstk Hc
      |ts Hmsg Hst Hpr Hta Hsp Hstk Hc
      |e0 Hmsg Hload Hst Hpr Hta Hsp Hstk Hc
      |k Hmsg Hk Hs0 Hst Hpr Hta Hsp Hstk Hc
      |k Hmsg Hk Hs0 Hst Hpr Hta Hsp Hstk Hc
      |k p Hmsg Hk Hs0 Hst Hin Hpr Hta Hsp Hstk Hc
      |k t Hmsg Hk Hs0 Hst Hin Hpr Hta Hsp Hstk Hc]; try congruence.
    + (* the state was already ["loading_tasks"]: nothing listing is issued *)
      apply at_most_one_issue; auto. intros x Hx. by apply listing_split; auto.
    + (* a project was picked in ["select_project"]: no request was pending *)
      apply at_most_one_first, Hnone, not_some_none.
      intros HsT. destruct (Id HsT) as [[?|?] _]; congruence.
  - intros Hs. apply some_of_issue in Hs; [|done].
    destruct (Ic (Hsome _ Hs)) as [Hnil HnoneT].
    destruct HS as [Hst Hpr Hta Hsp Hstk Hc Hn1 Hn2
      |ps Hmsg Hst Hpr Hta Hsp Hstk Hc
      |ts Hmsg Hst Hpr Hta Hsp Hstk Hc
      |e0 Hmsg Hload Hst Hpr Hta Hsp Hstk Hc
      |k Hmsg Hk Hs0 Hst Hpr Hta Hsp Hstk Hc
      |k Hmsg Hk Hs0 Hst Hpr Hta Hsp Hstk Hc
      |k p Hmsg Hk Hs0 Hst Hin Hpr Hta Hsp Hstk Hc
      |k t Hmsg Hk Hs0 Hst Hin Hpr Hta Hsp Hstk Hc].
    + split; [congruence|]. apply none_of_issue; [|auto].
      intros x Hx. by apply listing_split; auto.
    + exfalso. destruct (Hps ps Hmsg) as [_ Hno]. by eapply some_none_absurd.
    + exfalso. destruct (Hts ts Hmsg) as [HsT _]. by eapply some_none_absurd.
    + split; [congruence|]. apply none_of_issue; [|auto].
      intros x Hx. by apply listing_split; auto.
    + subst c. split; [congruence|]. apply none_of_issue; [discriminate|auto].
    + subst c. split; [congruence|]. apply none_of_issue; [discriminate|auto].
    + exfalso. rewrite Hnil in Hin. by eapply not_elem_of_nil.
    + subst c. split; [congruence|]. apply none_of_issue; [discriminate|auto].
  - intros Hs.
    destruct HS as [Hst Hpr Hta Hsp Hstk Hc Hn1 Hn2
      |ps Hmsg Hst Hpr Hta Hsp Hstk Hc
      |ts Hmsg Hst Hpr Hta Hsp Hstk Hc
      |e0 Hmsg Hload Hst Hpr Hta Hsp Hstk Hc
      |k Hmsg Hk Hs0 Hst Hpr Hta Hsp Hstk Hc
      |k Hmsg Hk Hs0 Hst Hpr Hta Hsp Hstk Hc
      |k p Hmsg Hk Hs0 Hst Hin Hpr Hta Hsp Hstk Hc
      |k t Hmsg Hk Hs0 Hst Hin Hpr Hta Hsp Hstk Hc].
    + apply some_of_issue in Hs; [|intros x Hx; by apply listing_split; auto].
      destruct (Id (Hsome _ Hs)) as [Hold Hsel].
      rewrite Hst, Hsp, Hpr. auto.
    + exfalso. apply some_of_issue in Hs; [|intros x Hx; by apply listing_split; auto].
      destruct (Hps ps Hmsg) as [HsP _]. destruct (Ic HsP) as [_ Hno].
      eapply some_none_absurd; [exact (Hsome _ Hs)|done].
    + exfalso. apply some_of_issue in Hs; [|intros x Hx; by apply listing_split; auto].
      destruct (Hts ts Hmsg) as [_ Hno]. by eapply some_none_absurd.
    + apply some_of_issue in Hs; [|intros x Hx; by apply listing_split; auto].
      destruct (Id (Hsome _ Hs)) as [_ Hsel].
      rewrite Hst, Hsp, Hpr. auto.
    + exfalso. subst c. apply some_of_issue in Hs; [|discriminate].
      destruct (Id (Hsome _ Hs)) as [[?|?] _]; congruence.
    + exfalso. subst c. apply some_of_issue in Hs; [|discriminate].
      destruct (Id (Hsome _ Hs)) as [[?|?] _]; congruence.
    + rewrite Hst, Hsp, Hpr. auto.
    + exfalso. subst c. apply some_of_issue in Hs; [|discriminate].
      destruct (Id (Hsome _ Hs)) as [[?|?] _]; congruence.
  - intros Hnow.
    destruct HS as [Hst Hpr Hta Hsp Hstk Hc Hn1 Hn2
      |ps Hmsg Hst Hpr Hta Hsp Hstk Hc
      |ts Hmsg Hst Hpr Hta Hsp Hstk Hc
      |e0 Hmsg Hload Hst Hpr Hta Hsp Hstk Hc
      |k Hmsg Hk Hs0 Hst Hpr Hta Hsp Hstk Hc
      |k Hmsg Hk Hs0 Hst Hpr Hta Hsp Hstk Hc
      |k p Hmsg Hk Hs0 Hst Hin Hpr Hta Hsp Hstk Hc
      |k t Hmsg Hk Hs0 Hst Hin Hpr Hta Hsp Hstk Hc]; rewrite Hst in Hnow.
    + rewrite Hsp, Hpr. by apply Ie.
    + destruct Hnow as [?|[?|?]]; discriminate.
    + destruct (Hts ts Hmsg) as [HsT _]. destruct (Id HsT) as [_ Hsel].
      by rewrite Hsp, Hpr.
    + destruct Hnow as [?|[?|?]]; discriminate.
    + destruct Hnow as [?|[?|?]]; discriminate.
    + rewrite Hsp, Hpr. apply Ie. auto.
    + by rewrite Hsp, Hpr.
    + rewrite Hsp, Hpr. apply Ie. auto.
  - intros Hnow.
    destruct HS as [Hst Hpr Hta Hsp Hstk Hc Hn1 Hn2
      |ps Hmsg Hst Hpr Hta Hsp Hstk Hc
      |ts Hmsg Hst Hpr Hta Hsp Hstk Hc
      |e0 Hmsg Hload Hst Hpr Hta Hsp Hstk Hc
      |k Hmsg Hk Hs0 Hst Hpr Hta Hsp Hstk Hc
      |k Hmsg Hk Hs0 Hst Hpr Hta Hsp Hstk Hc
      |k p Hmsg Hk Hs0 Hst Hin Hpr Hta Hsp Hstk Hc
      |k t Hmsg Hk Hs0 Hst Hin Hpr Hta Hsp Hstk Hc]; rewrite Hst in Hnow; try discriminate Hnow.
    + rewrite Hstk, Hta. by apply If.
    + by rewrite Hstk, Hta.
  - destruct HS as [Hst Hpr Hta Hsp Hstk Hc Hn1 Hn2
      |ps Hmsg Hst Hpr Hta Hsp Hstk Hc
      |ts Hmsg Hst Hpr Hta Hsp Hstk Hc
      |e0 Hmsg Hload Hst Hpr Hta Hsp Hstk Hc
      |k Hmsg Hk Hs0 Hst Hpr Hta Hsp Hstk Hc
      |k Hmsg Hk Hs0 Hst Hpr Hta Hsp Hstk Hc
      |k p Hmsg Hk Hs0 Hst Hin Hpr Hta Hsp Hstk Hc
      |k t Hmsg Hk Hs0 Hst Hin Hpr Hta Hsp Hstk Hc]; rewrite Hst; unfold known_state; auto 10.
Qed.

Lemma step_discipline (w : World) (ev : Event) :
  listing_discipline w -> listing_discipline (step w ev).
Proof.
  intros Hw. unfold step. destruct (halted w); [done|].
  destruct ev as [k|wd ht|x|n a];
    try (apply dispatch_discipline; [done|done|done|discriminate|discriminate]).
  destruct (inflight w !! n) as [c|] eqn:Hn; [|done].
  assert (forall msg, perform c a = Some msg ->
            listing_discipline (dispatch w (delete n (inflight w)) (Completed c a msg) msg))
    as Hdone.
  { intros msg Hperf. destruct Hw as (Ia & Ib & Iw). apply dispatch_discipline.
    - exact (conj Ia (conj Ib Iw)).
    - intros P. apply at_most_one_delete.
    - intros d. apply list_elem_of_delete_inv.
    - intros ps ->.
      apply perform_fetchProjectsMsg in Hperf as (client & resp & -> & _).
      split; [|by eapply none_after_delete].
      exists (fetchProjects client). split; [by eapply list_elem_of_lookup_2|done].
    - intros ts ->. apply perform_fetchTasksMsg in Hperf.
      split; [|by eapply none_after_delete].
      exists c. split; [by eapply list_elem_of_lookup_2|done]. }
  destruct (quits c a);
    [|destruct (perform c a) as [msg|] eqn:Hperf; [by apply Hdone|done]].
  destruct Hw as (Ia & Ib & Ic & Id & Ie & If & Ig).
  unfold listing_discipline. simpl. split_and!; auto.
  - by apply at_most_one_delete.
  - by apply at_most_one_delete.
  - intros Hs. destruct Ic as [Hnil Hno].
    { eapply some_of_incl; [|exact Hs]. intros d. apply list_elem_of_delete_inv. }
    split; [done|]. eapply none_of_incl; [|exact Hno].
    intros d. apply list_elem_of_delete_inv.
  - intros Hs. apply Id.
    eapply some_of_incl; [|exact Hs]. intros d. apply list_elem_of_delete_inv.
Qed.

Lemma run_discipline (w : World) (evs : list Event) :
  listing_discipline w -> listing_discipline (run w evs).
Proof.
  revert w. induction evs as [|ev evs IH]; intros w Hw; [done|].
  simpl. apply IH. by apply step_discipline.
Qed.
End DisciplineFacts.

(** ** Properties of every run *)

Section RunFacts.
Context {TK : Toolkit} {B : Bubbles} {R : MapRange}.

(** X20: the state changes along eight edges and no others.  One call of
    [Update] leaves the state as it is, or a list arrival moves to the
    matching selection screen, or a failure while loading moves to
    ["error"], or ["esc"] goes one screen back, or ["enter"] goes one screen
    forward. *)
Theorem state_changes_follow_the_table (m : Model) (msg : Msg) :
  state (Update m msg).1 = state m \/
  (exists ps, msg = fetchProjectsMsg ps /\ state (Update m msg).1 = "select_project") \/
  (exists ts, msg = fetchTasksMsg ts /\ state (Update m msg).1 = "select_task") \/
  (exists e, msg = errorMsg e /\
             (state m = "loading_projects" \/ state m = "loading_tasks") /\
             state (Update m msg).1 = "error") \/
  (exists k, msg = Key k /\ KeyMsg_String k = "esc" /\
             ((state m = "select_task" /\ state (Update m msg).1 = "select_project") \/
              (state m = "enter_details" /\ state (Update m msg).1 = "select_task"))) \/
  (exists k, msg = Key k /\ KeyMsg_String k = "enter" /\
             ((state m = "select_project" /\ state (Update m msg).1 = "loading_tasks") \/
              (state m = "select_task" /\ state (Update m msg).1 = "enter_details"))).
Proof.
  destruct (Update_Step m msg)
    as [Hst _ _ _ _ _ _ _
       |ps Hmsg Hst _ _ _ _ _
       |ts Hmsg Hst _ _ _ _ _
       |e0 Hmsg Hload Hst _ _ _ _ _
       |k Hmsg Hk Hs0 Hst _ _ _ _ _
       |k Hmsg Hk Hs0 Hst _ _ _ _ _
       |k p Hmsg Hk Hs0 Hst _ _ _ _ _ _
       |k t Hmsg Hk Hs0 Hst _ _ _ _ _ _].
  - by left.
  - right; left. eauto.
  - right; right; left. eauto.
  - right; right; right; left. eauto.
  - right; right; right; right; left. exists k. auto.
  - right; right; right; right; left. exists k. auto.
  - right; right; right; right; right. exists k. auto.
  - right; right; right; right; right. exists k. auto.
Qed.

(** X21: at every point of every run at most one listing request
    ([fetchProjects] or [fetchTasks]) is in flight, and while a
    [fetchTasks] is in flight the state is ["loading_tasks"] or ["error"],
    where no key can issue another one. *)
Theorem one_listing_request_in_flight (c : Configuration) (evs : list Event) :
  (length (List.filter is_listing (inflight (run (boot c) evs))) <= 1)%nat /\
  (some_of is_fetchTasks (inflight (run (boot c) evs)) ->
   state (model (run (boot c) evs)) = "loading_tasks" \/
   state (model (run (boot c) evs)) = "error").
Proof.
  destruct (run_discipline (boot c) evs (boot_discipline c))
    as (Ia & Ib & Ic & Id & _).
  split; [|intros Hs; by destruct (Id Hs)].
  apply at_most_one_filter. intros i j x y Hi Hj Hx Hy.
  unfold is_listing in Hx, Hy.
  apply orb_true_iff in Hx as [Hx|Hx]; apply orb_true_iff in Hy as [Hy|Hy].
  - by eapply Ia.
  - exfalso. destruct Ic as [_ Hno].
    { exists x. split; [by eapply list_elem_of_lookup_2|done]. }
    rewrite (Hno y) in Hy; [discriminate|by eapply list_elem_of_lookup_2].
  - exfalso. destruct Ic as [_ Hno].
    { exists y. split; [by eapply list_elem_of_lookup_2|done]. }
    rewrite (Hno x) in Hx; [discriminate|by eapply list_elem_of_lookup_2].
  - by eapply Ib.
Qed.

(** X22: a timer is only ever started for what the service listed.  At
    every point of every run, a [startTimer] that [Update] issues carries
    the id of a project of the stored project list and the id of a task of
    the stored task list. *)
Theorem timer_started_for_listed_ids (c : Configuration) (evs : list Event) (msg : Msg)
    (client : HarvestClient) (projectID taskID : Z) (notes : string) :
  (Update (model (run (boot c) evs)) msg).2
    = Some (startTimer client projectID taskID notes) ->
  exists p t,
    p ∈ projects (model (run (boot c) evs)) /\
    t ∈ tasks (model (run (boot c) evs)) /\
    projectID = Project_ID p /\ taskID = Task_ID t.
Proof.
  intros Hc.
  destruct (run_discipline (boot c) evs (boot_discipline c))
    as (_ & _ & _ & _ & Ie & If & _).
  set (m := model (run (boot c) evs)) in *.
  destruct (operation_from_enter m msg) as (k & -> & Hk & Heq); [by rewrite Hc|].
  rewrite Heq in Hc.
  destruct (Update_enter_operation m (Key k) _ Hc eq_refl)
    as [(_ & p & _ & _ & Hp & _)|(Hs & _ & _ & Ht)]; [discriminate Hp|].
  destruct (activeTimer m); [discriminate Ht|]. injection Ht as -> -> -> ->.
  exists (selectedProject m), (selectedTask m). split_and!; auto.
Qed.

(** X23: the state of every run is one of the six names the program
    uses, and in ["enter_details"] the selected task is an element of the
    stored task list and the selected project an element of the stored
    project list. *)
Theorem reachable_states (c : Configuration) (evs : list Event) :
  known_state (state (model (run (boot c) evs))) /\
  (state (model (run (boot c) evs)) = "enter_details" ->
   selectedProject (model (run (boot c) evs)) ∈ projects (model (run (boot c) evs)) /\
   selectedTask (model (run (boot c) evs)) ∈ tasks (model (run (boot c) evs))).
Proof.
  destruct (run_discipline (boot c) evs (boot_discipline c))
    as (_ & _ & _ & _ & Ie & If & Ig).
  split; [done|]. intros Hs. split; auto.
Qed.
End RunFacts.

(** ** The details page *)

Section PageFacts.
Context {TK : Toolkit} {B : Bubbles}.

(** X24: the details page names the selected project and the selected
    task, shows the notes field, and ends with the offer that matches the
    timer: "Press Enter to Stop Timer" with the running timer's line above
    it when a timer is tracked, "Press Enter to Start Timer" when none is. *)
Theorem details_page_offers_start_or_stop (m : Model) :
  state m = "enter_details" ->
  exists pre,
    View_state m =
      pre +:+ "Press Enter to " +:+
      (match activeTimer m with Some _ => "Stop Timer" | None => "Start Timer" end) /\
    shows ("Project: " +:+ Project_Name (selectedProject m)) pre /\
    shows ("Task: " +:+ Task_Name (selectedTask m)) pre /\
    shows (textinput_View (ticketInput m)) pre /\
    match activeTimer m with
    | Some t =>
        shows (infoStyle_Render (LF +:+ "Timer running: " +:+ Timer_Notes t +:+ " (" +:+
                                 fmt_2f (Timer_Hours t) +:+ " hours)")) pre
    | None => True
    end.
Proof.
  intros Hs. unfold View_state. rewrite Hs. literals.
  destruct (activeTimer m) as [t|]; cbv zeta.
  - exists ("Project: " +:+ Project_Name (selectedProject m) +:+ LF +:+
            "Task: " +:+ Task_Name (selectedTask m) +:+ LF +:+ LF +:+
            textinput_View (ticketInput m) +:+
            infoStyle_Render (LF +:+ "Timer running: " +:+ Timer_Notes t +:+ " (" +:+
                              fmt_2f (Timer_Hours t) +:+ " hours)") +:+ LF +:+ LF).
    split_and!.
    + rewrite !string_app_assoc. reflexivity.
    + rewrite <- string_app_assoc. apply shows_app_r, shows_refl.
    + do 3 apply shows_app_l. rewrite <- string_app_assoc. apply shows_app_r, shows_refl.
    + do 7 apply shows_app_l. apply shows_app_r, shows_refl.
    + do 8 apply shows_app_l. apply shows_app_r, shows_refl.
  - exists ("Project: " +:+ Project_Name (selectedProject m) +:+ LF +:+
            "Task: " +:+ Task_Name (selectedTask m) +:+ LF +:+ LF +:+
            textinput_View (ticketInput m) +:+ EmptyString +:+ LF +:+ LF).
    split_and!; [| | | |exact I].
    + rewrite !string_app_assoc. reflexivity.
    + rewrite <- string_app_assoc. apply shows_app_r, shows_refl.
    + do 3 apply shows_app_l. rewrite <- string_app_assoc. apply shows_app_r, shows_refl.
    + do 7 apply shows_app_l. apply shows_app_r, shows_refl.
Qed.
End PageFacts.

(** ** The further properties on the plain toolkit *)

Lemma listing_size_witness :
  (length [ {| Project_ID := 2; Project_Name := "Gamma" |};
            {| Project_ID := 1; Project_Name := "Beta" |} ]
   <= length [ {| entry_Project := {| Project_ID := 1; Project_Name := "Alpha" |} |};
               {| entry_Project := {| Project_ID := 2; Project_Name := "Gamma" |} |};
               {| entry_Project := {| Project_ID := 1; Project_Name := "Beta" |} |} ])%nat /\
  ([ {| Project_ID := 2; Project_Name := "Gamma" |};
     {| Project_ID := 1; Project_Name := "Beta" |} ] = [] <->
   [ {| entry_Project := {| Project_ID := 1; Project_Name := "Alpha" |} |};
     {| entry_Project := {| Project_ID := 2; Project_Name := "Gamma" |} |};
     {| entry_Project := {| Project_ID := 1; Project_Name := "Beta" |} |} ] = []).
Proof.
  apply (proj1 (@listing_size range_in_store_order) 200 EmptyString).
  vm_compute. reflexivity.
Defined.

Lemma listing_distinct_ids_lossless_witness :
  [ {| Project_ID := 2; Project_Name := "Gamma" |};
    {| Project_ID := 1; Project_Name := "Alpha" |} ]
  ≡ₚ entry_Project <$>
       [ {| entry_Project := {| Project_ID := 1; Project_Name := "Alpha" |} |};
         {| entry_Project := {| Project_ID := 2; Project_Name := "Gamma" |} |} ].
Proof.
  apply (proj1 (@listing_distinct_ids_lossless range_in_store_order) 200 EmptyString).
  - vm_compute. reflexivity.
  - vm_compute. apply NoDup_cons. split.
    + intros Hin. apply list_elem_of_singleton in Hin. discriminate Hin.
    + apply NoDup_singleton.
Defined.

Lemma listing_idempotent_witness :
  exists ps',
    @GetProjects range_in_store_order
      (Reply 200 EmptyString
         ((fun p => {| entry_Project := p |}) <$>
            [ {| Project_ID := 2; Project_Name := "Gamma" |};
              {| Project_ID := 1; Project_Name := "Beta" |} ]))
      = Returned ps' /\
    ps' ≡ₚ [ {| Project_ID := 2; Project_Name := "Gamma" |};
             {| Project_ID := 1; Project_Name := "Beta" |} ].
Proof.
  apply (@listing_idempotent range_in_store_order
           (Reply 200 EmptyString
              [ {| entry_Project := {| Project_ID := 1; Project_Name := "Alpha" |} |};
                {| entry_Project := {| Project_ID := 2; Project_Name := "Gamma" |} |};
                {| entry_Project := {| Project_ID := 1; Project_Name := "Beta" |} |} ])).
  vm_compute. reflexivity.
Defined.

Lemma client_succeeds_up_to_399_witness :
  exists ts, @GetTasks range_in_store_order 1 (Reply 399 EmptyString []) = Returned ts.
Proof.
  apply (proj1 (proj2 (@client_succeeds_up_to_399 plain_toolkit range_in_store_order))).
  exists 399, EmptyString, []. split; [reflexivity|lia].
Defined.

Lemma StartTimer_returns_the_reply_witness :
  (exists status body, Reply 201 EmptyString demo_timer = Reply status body demo_timer) /\
  (forall projectID' taskID' notes',
     StartTimer projectID' taskID' notes' (Reply 201 EmptyString demo_timer)
       = Returned demo_timer).
Proof.
  apply (@StartTimer_returns_the_reply plain_toolkit 1 10 "x").
  vm_compute. reflexivity.
Defined.

Lemma NewHarvestClient_base_url_witness :
  BaseURL (config (NewHarvestClient demo_config)) = defaultBaseURL.
Proof.
  apply (proj1 (proj2 (NewHarvestClient_base_url demo_config))).
  vm_compute. reflexivity.
Defined.

Lemma main_starts_the_program_witness :
  (exists m, demo_main "42" "token" (Reply 200 EmptyString tt) = tea_Run m) /\
  (exists msg, demo_main "42" EmptyString (Reply 200 EmptyString tt) = log_Fatal msg).
Proof.
  split.
  - apply (proj1 (@main_starts_the_program plain_toolkit plain_bubbles
                    "42" "token" (Reply 200 EmptyString tt))).
    split_and!; [discriminate|discriminate|].
    exists 200, EmptyString, tt. split; [reflexivity|lia].
  - apply (proj2 (proj2 (@main_starts_the_program plain_toolkit plain_bubbles
                           "42" EmptyString (Reply 200 EmptyString tt)))).
    right. reflexivity.
Defined.

Lemma timer_operations_come_from_confirm_witness :
  (exists k, demo_key "enter" = Key k /\ @KeyMsg_String plain_toolkit k = "enter") /\
  state demo_typed_model = "enter_details" /\
  activeTimer demo_typed_model = None /\
  "x" = textinput_Value (Bubbles := plain_bubbles) (ticketInput demo_typed_model) /\
  "x" <> EmptyString /\
  NewHarvestClient demo_config = harvestClient demo_typed_model /\
  1 = Project_ID (selectedProject demo_typed_model) /\
  10 = Task_ID (selectedTask demo_typed_model).
Proof.
  apply (proj1 (@timer_operations_come_from_confirm plain_toolkit plain_bubbles
                  demo_typed_model (demo_key "enter"))).
  vm_compute. reflexivity.
Defined.

Lemma listing_operations_come_from_select_witness :
  (exists k, demo_key "enter" = Key k /\ @KeyMsg_String plain_toolkit k = "enter") /\
  state demo_projects_model = "select_project" /\
  NewHarvestClient demo_config = harvestClient demo_projects_model /\
  0 <= list_Index (Bubbles := plain_bubbles) (projectList demo_projects_model)
    < len (projects demo_projects_model) /\
  exists p,
    projects demo_projects_model
      !! Z.to_nat (list_Index (Bubbles := plain_bubbles) (projectList demo_projects_model))
      = Some p /\
    1 = Project_ID p /\
    selectedProject (demo_Update demo_projects_model (demo_key "enter")).1 = p /\
    state (demo_Update demo_projects_model (demo_key "enter")).1 = "loading_tasks".
Proof.
  apply (proj2 (@listing_operations_come_from_select plain_toolkit plain_bubbles
                  demo_projects_model (demo_key "enter"))).
  vm_compute. reflexivity.
Defined.


Lemma help_overlay_only_matters_to_esc_witness :
  demo_Update (set_showHelp true demo_projects_model) (demo_key "enter")
    = (set_showHelp true (demo_Update demo_projects_model (demo_key "enter")).1,
       (demo_Update demo_projects_model (demo_key "enter")).2).
Proof.
  apply (proj2 (@help_overlay_only_matters_to_esc plain_toolkit plain_bubbles
                  demo_projects_model (demo_key "enter") true)).
  intros k [= <-]. split; vm_compute; discriminate.
Defined.

Lemma quit_is_final_witness :
  quitting (@Update_all plain_toolkit plain_bubbles
              (demo_Update demo_timer_model (demo_key "q")).1
              [ demo_key "x"; errorMsg "late"; stopTimerMsg true ]) = true /\
  View (B := plain_bubbles)
    (@Update_all plain_toolkit plain_bubbles
       (demo_Update demo_timer_model (demo_key "q")).1
       [ demo_key "x"; errorMsg "late"; stopTimerMsg true ]) = "Bye!" +:+ LF.
Proof.
  apply (@quit_is_final plain_toolkit plain_bubbles demo_timer_model
           ("q" : @KeyMsg plain_toolkit)).
  left. reflexivity.
Defined.

Lemma keys_while_loading_or_failed_witness :
  state (demo_Update demo_boot_model (demo_key "enter")).1 = state demo_boot_model /\
  projects (demo_Update demo_boot_model (demo_key "enter")).1 = projects demo_boot_model /\
  tasks (demo_Update demo_boot_model (demo_key "enter")).1 = tasks demo_boot_model /\
  selectedProject (demo_Update demo_boot_model (demo_key "enter")).1
    = selectedProject demo_boot_model /\
  selectedTask (demo_Update demo_boot_model (demo_key "enter")).1
    = selectedTask demo_boot_model /\
  activeTimer (demo_Update demo_boot_model (demo_key "enter")).1
    = activeTimer demo_boot_model /\
  ticketInput (demo_Update demo_boot_model (demo_key "enter")).1
    = ticketInput demo_boot_model /\
  projectList (demo_Update demo_boot_model (demo_key "enter")).1
    = projectList demo_boot_model /\
  taskList (demo_Update demo_boot_model (demo_key "enter")).1 = taskList demo_boot_model /\
  ((demo_Update demo_boot_model (demo_key "enter")).2 = None \/
   (demo_Update demo_boot_model (demo_key "enter")).2 = Some tea_Quit).
Proof.
  apply (@keys_while_loading_or_failed plain_toolkit plain_bubbles demo_boot_model
           ("enter" : @KeyMsg plain_toolkit)).
  left. vm_compute. reflexivity.
Defined.

Lemma confirm_is_repeatable_witness :
  is_operation (demo_Update demo_typed_model (demo_key "enter")).2 = true /\
  demo_Update (demo_Update demo_typed_model (demo_key "enter")).1 (demo_key "enter")
    = demo_Update demo_typed_model (demo_key "enter").
Proof.
  apply (@confirm_is_repeatable plain_toolkit plain_bubbles demo_typed_model
           ("enter" : @KeyMsg plain_toolkit)).
  - vm_compute. reflexivity.
  - vm_compute. discriminate.
  - reflexivity.
Defined.

Lemma select_task_at_index_witness :
  exists t,
    tasks demo_tasks_model
      !! Z.to_nat (list_Index (Bubbles := plain_bubbles) (taskList demo_tasks_model))
      = Some t /\
    demo_Update demo_tasks_model (demo_key "enter") =
      (set_ticketInput
         (textinput_Focus (Bubbles := plain_bubbles) (ticketInput demo_tasks_model))
         (set_state "enter_details"
            (set_selectedTask t
               (set_success EmptyString (set_error EmptyString demo_tasks_model)))),
       None).
Proof.
  apply (@select_task_at_index plain_toolkit plain_bubbles demo_tasks_model
           ("enter" : @KeyMsg plain_toolkit)).
  - vm_compute. reflexivity.
  - vm_compute. split; [discriminate|reflexivity].
  - reflexivity.
Defined.

Lemma start_then_stop_witness :
  let m1 := (demo_Update demo_typed_model
               (startTimer_run 1 10 "x" (Reply 201 EmptyString demo_timer))).1 in
  let m2 := (demo_Update m1 (demo_key "enter")).1 in
  let m3 := (demo_Update m2 (stopTimer_run 7 (Reply 200 EmptyString tt))).1 in
  success m1 = "Timer started for: " +:+
               textinput_Value (Bubbles := plain_bubbles) (ticketInput demo_typed_model) /\
  (demo_Update m1 (demo_key "enter")).2
    = Some (stopTimer (harvestClient demo_typed_model) 7) /\
  activeTimer m2 = Some demo_timer /\
  activeTimer m3 = None /\
  success m3 = "Timer stopped" /\
  state m3 = "enter_details".
Proof.
  apply (@start_then_stop plain_toolkit plain_bubbles demo_typed_model
           ("enter" : @KeyMsg plain_toolkit) 1 10 "x"
           (Reply 201 EmptyString demo_timer) demo_timer (Reply 200 EmptyString tt)).
  - vm_compute. reflexivity.
  - reflexivity.
  - vm_compute. reflexivity.
  - vm_compute. reflexivity.
  - vm_compute. discriminate.
Defined.

Lemma enter_clears_messages_witness :
  success (demo_Update demo_timer_model (demo_key "enter")).1 = EmptyString /\
  error (demo_Update demo_timer_model (demo_key "enter")).1 =
    (if String.eqb (state demo_timer_model) "enter_details"
        && String.eqb (textinput_Value (Bubbles := plain_bubbles)
                         (ticketInput demo_timer_model)) EmptyString
     then "Please enter ticket number and description"
     else EmptyString).
Proof.
  apply (@enter_clears_messages plain_toolkit plain_bubbles demo_timer_model
           ("enter" : @KeyMsg plain_toolkit)).
  reflexivity.
Defined.

Lemma one_listing_request_in_flight_witness :
  state (model (demo_run demo_boot demo_to_loading_tasks)) = "loading_tasks" \/
  state (model (demo_run demo_boot demo_to_loading_tasks)) = "error".
Proof.
  apply (proj2 (@one_listing_request_in_flight plain_toolkit plain_bubbles
                  range_in_store_order demo_config demo_to_loading_tasks)).
  exists (fetchTasks (NewHarvestClient demo_config) 1).
  split; [vm_compute; by left|reflexivity].
Defined.

Lemma timer_started_for_listed_ids_witness :
  exists p t,
    p ∈ projects demo_typed_model /\
    t ∈ tasks demo_typed_model /\
    1 = Project_ID p /\ 10 = Task_ID t.
Proof.
  apply (@timer_started_for_listed_ids plain_toolkit plain_bubbles range_in_store_order
           demo_config
           (demo_to_tasks ++
            [ Press ("enter" : @KeyMsg plain_toolkit);
              Press ("x" : @KeyMsg plain_toolkit) ])
           (demo_key "enter") (NewHarvestClient demo_config) 1 10 "x").
  vm_compute. reflexivity.
Defined.

Lemma reachable_states_witness :
  selectedProject demo_timer_model ∈ projects demo_timer_model /\
  selectedTask demo_timer_model ∈ tasks demo_timer_model.
Proof.
  apply (proj2 (@reachable_states plain_toolkit plain_bubbles range_in_store_order
                  demo_config demo_to_timer)).
  vm_compute. reflexivity.
Defined.

Lemma details_page_offers_start_or_stop_witness :
  exists pre,
    View_state (B := plain_bubbles) demo_timer_model = pre +:+ "Press Enter to Stop Timer" /\
    shows "Project: Alpha" pre /\
    shows "Task: Build" pre /\
    shows "> x" pre /\
    shows (LF +:+ "Timer running: x (0.00 hours)") pre.
Proof.
  apply (@details_page_offers_start_or_stop plain_toolkit plain_bubbles demo_timer_model).
  vm_compute. reflexivity.
Defined.

(** C10 as stated fails.  On the details screen with the notes focused, the
    runes q and u arrive in one key message (a fast burst or a paste): its
    [String()] is ["qu"], not ["q"], so the quit case does not fire, the
    text field receives the message, and the notes now contain q.  The
    single key q on the same screen quits and types nothing. *)
Lemma q_typed_with_another_rune :
  let w := rune_run rune_to_details in
  let typed := rune_run (rune_to_details ++ [ Press (Runes false "qu" : @KeyMsg rune_toolkit) ]) in
  let quit := rune_run (rune_to_details ++ [ Press (Runes false "q" : @KeyMsg rune_toolkit) ]) in
  state (model w) = "enter_details" /\
  textinput_Focused (Bubbles := rune_bubbles) (ticketInput (model w)) = true /\
  textinput_Value (Bubbles := rune_bubbles) (ticketInput (model w)) = EmptyString /\
  state (model typed) = "enter_details" /\
  quitting (model typed) = false /\
  inflight typed = [] /\
  textinput_Value (Bubbles := rune_bubbles) (ticketInput (model typed)) = "qu" /\
  shows "q" (textinput_Value (Bubbles := rune_bubbles) (ticketInput (model typed))) /\
  quitting (model quit) = true /\
  inflight quit = [ tea_Quit ] /\
  textinput_Value (Bubbles := rune_bubbles) (ticketInput (model quit)) = EmptyString.
Proof.
  vm_compute. split_and!; try reflexivity.
  exists EmptyString, "u". reflexivity.
Qed.
